(** * Milkymist AC'97 controller: register file, codec command relay,
      DMA callbacks, reset and restore (hw/milkymist-ac97.c) *)

From Stdlib Require Import ZArith Lia Bool.
From stdpp Require Import base option list.

Local Open Scope Z_scope.

(** ** C integer types

    Values of C integer types are integers of [Z]; every conversion that can
    lose information is written out. *)

(** Conversion to [uint32_t]. *)
Definition wrap32 (z : Z) : Z := z mod 2 ^ 32.

(** Conversion to [int] (two's complement, 32 bits). *)
Definition to_int (z : Z) : Z := (z + 2 ^ 31) mod 2 ^ 32 - 2 ^ 31.

(** Conversion to [size_t] of the host (64 bits). *)
Definition to_size_t (z : Z) : Z := z mod 2 ^ 64.

(** A C scalar used as a condition. *)
Definition c_true (z : Z) : bool := negb (z =? 0).

(** The values a [uint32_t] register can hold. *)
Definition is_uint32 (z : Z) : bool := (0 <=? z) && (z <? 2 ^ 32).

(** Modelled from the spec: the macro [audio_MIN] of audio/audio.h is not in
    the source file; the spec calls it [min] of its two operands.  The
    operands are compared after the usual arithmetic conversions, which the
    call sites below write out. *)
Definition audio_MIN (a b : Z) : Z := if a >? b then b else a.

(** ** Register map and bit masks (the three anonymous enums) *)

Definition R_AC97_CTRL : Z := 0.
Definition R_AC97_ADDR : Z := 1.
Definition R_AC97_DATAOUT : Z := 2.
Definition R_AC97_DATAIN : Z := 3.
Definition R_D_CTRL : Z := 4.
Definition R_D_ADDR : Z := 5.
Definition R_D_REMAINING : Z := 6.
Definition R_RESERVED : Z := 7.
Definition R_U_CTRL : Z := 8.
Definition R_U_ADDR : Z := 9.
Definition R_U_REMAINING : Z := 10.
Definition R_MAX : Z := 11.

Definition AC97_CTRL_RQEN : Z := Z.shiftl 1 0.
Definition AC97_CTRL_WRITE : Z := Z.shiftl 1 1.
Definition CTRL_EN : Z := Z.shiftl 1 0.

(** [sizeof(buf)] for [uint8_t buf[4096]]. *)
Definition sizeof_buf : Z := 4096.

(** ** What the device does to its collaborators

    The four interrupt lines, the guest-memory bus and the error log are
    outside the device; a call to one of them is recorded as an event, in
    program order.  The two calls into the audio backend that move samples
    are recorded as well, with the size asked for and the size returned. *)

Inductive irq_line : Type :=
| crrequest_irq
| crreply_irq
| dmar_irq
| dmaw_irq.

Inductive event : Type :=
| qemu_irq_pulse (irq : irq_line)
| error_report_read (addr : Z)
| error_report_write (addr : Z)
| cpu_physical_memory_write (addr len : Z)
| cpu_physical_memory_read (addr len : Z)
| AUD_read_call (size acquired : Z)
| AUD_write_call (size copied : Z).

(** The interrupt lines pulsed by a run, in order. *)
Fixpoint pulses (evs : list event) : list irq_line :=
  match evs with
  | [] => []
  | qemu_irq_pulse irq :: evs' => irq :: pulses evs'
  | _ :: evs' => pulses evs'
  end.

(** Bytes that reached their destination: guest memory for the record
    channel, the output voice for the playback channel. *)
Fixpoint bytes_moved (evs : list event) : Z :=
  match evs with
  | [] => 0
  | cpu_physical_memory_write _ len :: evs' => len + bytes_moved evs'
  | AUD_write_call _ copied :: evs' => copied + bytes_moved evs'
  | _ :: evs' => bytes_moved evs'
  end.

(** Calls that touch guest memory or the sample streams. *)
Definition is_data_movement (e : event) : bool :=
  match e with
  | cpu_physical_memory_write _ _ | cpu_physical_memory_read _ _
  | AUD_read_call _ _ | AUD_write_call _ _ => true
  | _ => false
  end.

(** ** Device state *)

Section Model.

(** State of the host audio engine behind a voice. *)
Context {Stream : Type}.

(** A backend voice handle: its activity flag and its sample stream. *)
Record SWVoice : Type := mkVoice {
  active : bool;
  hw : Stream
}.

Record MilkymistAC97State : Type := mkState {
  voice_in : SWVoice;
  voice_out : SWVoice;
  regs : list Z
}.

(** The audio backend's sample primitives, [AUD_read (sw, buf, size)] and
    [AUD_write (sw, buf, size)]: the number of bytes moved and the stream
    afterwards. *)
Variable AUD_read : Stream -> Z -> Z * Stream.
Variable AUD_write : Stream -> Z -> Z * Stream.

(** Modelled from the spec: [AUD_set_active_in] and [AUD_set_active_out]
    (audio/audio.c) are not in the source file; each voice exposes
    [set_active (bool)], which sets the voice's activity. *)
Definition AUD_set_active_in (sw : SWVoice) (on : bool) : SWVoice :=
  {| active := on; hw := hw sw |}.
Definition AUD_set_active_out (sw : SWVoice) (on : bool) : SWVoice :=
  {| active := on; hw := hw sw |}.

(** [s->regs[i]] and [s->regs[i] = v]. *)
Definition reg (s : MilkymistAC97State) (i : Z) : Z :=
  default 0 (regs s !! Z.to_nat i).

Definition set_reg (s : MilkymistAC97State) (i v : Z) : MilkymistAC97State :=
  {| voice_in := voice_in s; voice_out := voice_out s;
     regs := <[Z.to_nat i := v]> (regs s) |}.

Definition set_voice_in (s : MilkymistAC97State) (sw : SWVoice) :=
  {| voice_in := sw; voice_out := voice_out s; regs := regs s |}.

Definition set_voice_out (s : MilkymistAC97State) (sw : SWVoice) :=
  {| voice_in := voice_in s; voice_out := sw; regs := regs s |}.

(** [uint32_t regs[R_MAX]]: eleven words of 32 bits. *)
Definition regs_ok (s : MilkymistAC97State) : bool :=
  (length (regs s) =? Z.to_nat R_MAX)%nat && forallb is_uint32 (regs s).

(** A [case] label list of a [switch]. *)
Definition switch_case (addr : Z) (labels : list Z) : bool :=
  existsb (Z.eqb addr) labels.

(** ** update_voices *)

Definition update_voices (s : MilkymistAC97State) : MilkymistAC97State :=
  let s :=
    if c_true (Z.land (reg s R_D_CTRL) CTRL_EN)
    then set_voice_out s (AUD_set_active_out (voice_out s) true)
    else set_voice_out s (AUD_set_active_out (voice_out s) false) in
  if c_true (Z.land (reg s R_U_CTRL) CTRL_EN)
  then set_voice_in s (AUD_set_active_in (voice_in s) true)
  else set_voice_in s (AUD_set_active_in (voice_in s) false).

(** ** ac97_read *)

Definition ac97_read (s : MilkymistAC97State) (addr : Z)
  : Z * MilkymistAC97State * list event :=
  let r := 0 in
  let addr := Z.shiftr addr 2 in
  if switch_case addr
       [R_AC97_CTRL; R_AC97_ADDR; R_AC97_DATAOUT; R_AC97_DATAIN; R_D_CTRL;
        R_D_ADDR; R_D_REMAINING; R_U_CTRL; R_U_ADDR; R_U_REMAINING]
  then (reg s addr, s, [])
  else (r, s, [error_report_read (Z.shiftl addr 2)]).

(** ** ac97_write *)

Definition ac97_write (s : MilkymistAC97State) (addr value : Z)
  : MilkymistAC97State * list event :=
  let addr := Z.shiftr addr 2 in
  if switch_case addr [R_AC97_CTRL] then
    (* always raise an IRQ according to the direction *)
    let evs :=
      if c_true (Z.land value AC97_CTRL_RQEN) then
        if c_true (Z.land value AC97_CTRL_WRITE)
        then [qemu_irq_pulse crrequest_irq]
        else [qemu_irq_pulse crreply_irq]
      else [] in
    (* RQEN is self clearing *)
    (set_reg s addr (Z.land value (Z.lnot AC97_CTRL_RQEN)), evs)
  else if switch_case addr [R_D_CTRL; R_U_CTRL] then
    (update_voices (set_reg s addr value), [])
  else if switch_case addr
            [R_AC97_ADDR; R_AC97_DATAOUT; R_AC97_DATAIN; R_D_ADDR;
             R_D_REMAINING; R_U_ADDR; R_U_REMAINING] then
    (set_reg s addr value, [])
  else (s, [error_report_write addr]).

(** ** ac97_in_cb

    The [while (temp)] loop, on the locals [temp], [addr], [transferred]
    and the input voice's stream.  [fuel] bounds the number of
    iterations; [None] is a loop that has not ended within it. *)

Fixpoint ac97_in_cb_loop (fuel : nat) (sw : Stream) (temp addr transferred : Z)
  : option (Stream * Z * Z * list event) :=
  if c_true temp then
    match fuel with
    | O => None
    | S fuel' =>
        let to_copy := to_int (audio_MIN (to_size_t temp) sizeof_buf) in
        let '(acquired, sw') := AUD_read sw to_copy in
        if negb (c_true acquired) then
          Some (sw', addr, transferred, [AUD_read_call to_copy acquired])
        else
          match ac97_in_cb_loop fuel' sw' (to_int (temp - acquired))
                  (wrap32 (addr + acquired))
                  (to_int (transferred + acquired)) with
          | None => None
          | Some (sw'', addr', transferred', evs) =>
              Some (sw'', addr', transferred',
                    AUD_read_call to_copy acquired
                      :: cpu_physical_memory_write addr acquired :: evs)
          end
    end
  else Some (sw, addr, transferred, []).

Definition ac97_in_cb (fuel : nat) (s : MilkymistAC97State) (avail_b : Z)
  : option (MilkymistAC97State * list event) :=
  let remaining := reg s R_U_REMAINING in
  let temp := to_int (audio_MIN remaining (wrap32 avail_b)) in
  let addr := reg s R_U_ADDR in
  let transferred := 0 in
  (* prevent from raising an IRQ *)
  if temp =? 0 then Some (s, [])
  else
    match ac97_in_cb_loop fuel (hw (voice_in s)) temp addr transferred with
    | None => None
    | Some (sw, addr, transferred, evs) =>
        let s := set_voice_in s {| active := active (voice_in s); hw := sw |} in
        let s := set_reg s R_U_ADDR addr in
        let s := set_reg s R_U_REMAINING
                   (wrap32 (reg s R_U_REMAINING - transferred)) in
        if c_true (Z.land (reg s R_U_CTRL) CTRL_EN)
           && (reg s R_U_REMAINING =? 0)
        then Some (s, evs ++ [qemu_irq_pulse dmaw_irq])
        else Some (s, evs)
    end.

(** ** ac97_out_cb *)

Fixpoint ac97_out_cb_loop (fuel : nat) (sw : Stream) (temp addr transferred : Z)
  : option (Stream * Z * Z * list event) :=
  if c_true temp then
    match fuel with
    | O => None
    | S fuel' =>
        let to_copy := to_int (audio_MIN (to_size_t temp) sizeof_buf) in
        let '(copied, sw') := AUD_write sw to_copy in
        if negb (c_true copied) then
          Some (sw', addr, transferred,
                [cpu_physical_memory_read addr to_copy;
                 AUD_write_call to_copy copied])
        else
          match ac97_out_cb_loop fuel' sw' (to_int (temp - copied))
                  (wrap32 (addr + copied))
                  (to_int (transferred + copied)) with
          | None => None
          | Some (sw'', addr', transferred', evs) =>
              Some (sw'', addr', transferred',
                    cpu_physical_memory_read addr to_copy
                      :: AUD_write_call to_copy copied :: evs)
          end
    end
  else Some (sw, addr, transferred, []).

Definition ac97_out_cb (fuel : nat) (s : MilkymistAC97State) (free_b : Z)
  : option (MilkymistAC97State * list event) :=
  let remaining := reg s R_D_REMAINING in
  let temp := to_int (audio_MIN remaining (wrap32 free_b)) in
  let addr := reg s R_D_ADDR in
  let transferred := 0 in
  (* prevent from raising an IRQ *)
  if temp =? 0 then Some (s, [])
  else
    match ac97_out_cb_loop fuel (hw (voice_out s)) temp addr transferred with
    | None => None
    | Some (sw, addr, transferred, evs) =>
        let s := set_voice_out s {| active := active (voice_out s); hw := sw |} in
        let s := set_reg s R_D_ADDR addr in
        let s := set_reg s R_D_REMAINING
                   (wrap32 (reg s R_D_REMAINING - transferred)) in
        if c_true (Z.land (reg s R_D_CTRL) CTRL_EN)
           && (reg s R_D_REMAINING =? 0)
        then Some (s, evs ++ [qemu_irq_pulse dmar_irq])
        else Some (s, evs)
    end.

(** ** milkymist_ac97_reset *)

Definition milkymist_ac97_reset (s : MilkymistAC97State) : MilkymistAC97State :=
  let s := foldl (fun s i => set_reg s (Z.of_nat i) 0) s
             (seq 0 (Z.to_nat R_MAX)) in
  let s := set_voice_in s (AUD_set_active_in (voice_in s) false) in
  set_voice_out s (AUD_set_active_out (voice_out s) false).

(** ** ac97_post_load *)

Definition ac97_post_load (s : MilkymistAC97State) (version_id : Z)
  : Z * MilkymistAC97State :=
  (0, update_voices s).

(** ** Successive capacity callbacks

    The backend calls a channel's callback once per entry of [avails];
    the events of all calls are collected in order. *)

Fixpoint run_cbs (cb : MilkymistAC97State -> Z -> option (MilkymistAC97State * list event))
    (s : MilkymistAC97State) (avails : list Z)
  : option (MilkymistAC97State * list event) :=
  match avails with
  | [] => Some (s, [])
  | a :: rest =>
      match cb s a with
      | None => None
      | Some (s', evs) =>
          match run_cbs cb s' rest with
          | None => None
          | Some (s'', evs') => Some (s'', evs ++ evs')
          end
      end
  end.

End Model.

Arguments SWVoice : clear implicits.
Arguments MilkymistAC97State : clear implicits.

(** ** The two DMA channels

    A channel is a view over three registers, a voice, a callback and a
    completion line: Download is playback, Upload is record. *)

Inductive channel : Type := Download | Upload.

Definition CTRL (ch : channel) : Z :=
  match ch with Download => R_D_CTRL | Upload => R_U_CTRL end.

Definition ADDR (ch : channel) : Z :=
  match ch with Download => R_D_ADDR | Upload => R_U_ADDR end.

Definition REMAINING (ch : channel) : Z :=
  match ch with Download => R_D_REMAINING | Upload => R_U_REMAINING end.

Definition completion_irq (ch : channel) : irq_line :=
  match ch with Download => dmar_irq | Upload => dmaw_irq end.

Definition AUD_call (ch : channel) : Z -> Z -> event :=
  match ch with Download => AUD_write_call | Upload => AUD_read_call end.

Section Channels.

Context {Stream : Type}.
Variable AUD_read : Stream -> Z -> Z * Stream.
Variable AUD_write : Stream -> Z -> Z * Stream.

Definition voice (ch : channel) (s : MilkymistAC97State Stream) : SWVoice Stream :=
  match ch with Download => voice_out s | Upload => voice_in s end.

Definition AUD_move (ch : channel) : Stream -> Z -> Z * Stream :=
  match ch with Download => AUD_write | Upload => AUD_read end.

(** The state once the channel's voice has moved on to stream [sw]. *)
Definition set_stream (ch : channel) (s : MilkymistAC97State Stream)
    (sw : Stream) : MilkymistAC97State Stream :=
  match ch with
  | Download => set_voice_out s {| active := active (voice_out s); hw := sw |}
  | Upload => set_voice_in s {| active := active (voice_in s); hw := sw |}
  end.

Definition capacity_cb (ch : channel) (fuel : nat)
    (s : MilkymistAC97State Stream) (avail : Z)
  : option (MilkymistAC97State Stream * list event) :=
  match ch with
  | Download => ac97_out_cb AUD_write fuel s avail
  | Upload => ac97_in_cb AUD_read fuel s avail
  end.

(** What a transfer loop started with [temp] bytes to move yields: the run
    ends, the locals [addr] and [transferred] advance by the bytes moved,
    which are at most [temp], only guest memory and the voice are touched,
    and the first answer of the backend is part of the bytes moved. *)
Definition loop_result (AUD : Stream -> Z -> Z * Stream) (call : Z -> Z -> event)
    (sw : Stream) (temp addr transferred : Z)
    (res : option (Stream * Z * Z * list event)) : Prop :=
  exists sw' evs,
    res = Some (sw', wrap32 (addr + bytes_moved evs),
                transferred + bytes_moved evs, evs) /\
    0 <= bytes_moved evs <= temp /\
    forallb is_data_movement evs = true /\
    (0 < temp ->
     let size := Z.min temp sizeof_buf in
     call size (fst (AUD sw size)) ∈ evs /\
     fst (AUD sw size) <= bytes_moved evs).

(** One capacity callback of a channel, for a byte count [a]: it returns;
    it moves at most [min (REMAINING, a)] bytes; ADDR advances and REMAINING
    shrinks by the bytes moved; CTRL stays; the completion line is pulsed
    when something was to be moved, the channel is enabled and REMAINING
    has reached zero; and the first call into the backend is made. *)
Definition cb_result (ch : channel) (s : MilkymistAC97State Stream) (a : Z)
    (res : option (MilkymistAC97State Stream * list event)) : Prop :=
  exists s' evs,
    res = Some (s', evs) /\
    regs_ok s' = true /\
    0 <= bytes_moved evs <= Z.min (reg s (REMAINING ch)) a /\
    reg s' (ADDR ch) = wrap32 (reg s (ADDR ch) + bytes_moved evs) /\
    reg s' (REMAINING ch) = reg s (REMAINING ch) - bytes_moved evs /\
    reg s' (CTRL ch) = reg s (CTRL ch) /\
    pulses evs
    = (if (0 <? Z.min (reg s (REMAINING ch)) a)
          && Z.testbit (reg s (CTRL ch)) 0
          && (reg s (REMAINING ch) - bytes_moved evs =? 0)
       then [completion_irq ch] else []) /\
    (0 < Z.min (reg s (REMAINING ch)) a ->
     let size := Z.min (Z.min (reg s (REMAINING ch)) a) sizeof_buf in
     AUD_call ch size (fst (AUD_move ch (hw (voice ch s)) size)) ∈ evs /\
     fst (AUD_move ch (hw (voice ch s)) size) <= bytes_moved evs).

End Channels.

(** ** Two concrete backends

    [full_backend] always moves the whole request.  [supply_backend] holds
    a stock of bytes and moves as much of a request as the stock allows. *)

Definition full_backend (sw : unit) (size : Z) : Z * unit := (size, sw).

Definition supply_backend (sw : Z) (size : Z) : Z * Z :=
  let n := Z.max 0 (Z.min sw size) in (n, sw - n).

(** A state with the given registers and both voices inactive. *)
Definition state_of_regs {Stream : Type} (st : Stream) (rs : list Z)
  : MilkymistAC97State Stream :=
  {| voice_in := {| active := false; hw := st |};
     voice_out := {| active := false; hw := st |};
     regs := rs |}.

(** ** Sample states *)

(** The state after reset of a device whose registers all held 7. *)
Definition reset_state : MilkymistAC97State unit :=
  milkymist_ac97_reset (state_of_regs tt (replicate (Z.to_nat R_MAX) 7)).

(** The guest programs a playback of 8192 bytes from 0x1000. *)
Definition playback_programmed : MilkymistAC97State unit :=
  let s := fst (ac97_write reset_state 0x14 0x1000) in
  let s := fst (ac97_write s 0x18 8192) in
  fst (ac97_write s 0x10 1).

(** A playback channel with 8 bytes left at address 0x1000, enabled. *)
Definition playback_small : MilkymistAC97State unit :=
  state_of_regs tt [0; 0; 0; 0; 1; 0x1000; 8; 0; 0; 0; 0].

(** A record channel with 8 bytes left at address 0x2000, disabled. *)
Definition record_idle : MilkymistAC97State Z :=
  state_of_regs 5 [0; 0; 0; 0; 0; 0; 0; 0; 0; 0x2000; 8].

(** ** The device as a state machine

    The bus, the audio backend and the device framework reach the device
    through five entry points: the two MMIO handlers, the two capacity
    callbacks, reset and the post-load hook.  An operation names one call;
    a run threads the state through a list of them. *)

Inductive op : Type :=
| op_read (addr : Z)
| op_write (addr value : Z)
| op_cb (ch : channel) (avail : Z)
| op_reset
| op_post_load (version_id : Z).

(** An operation whose arguments fit their C types, a callback offering a
    byte count that [fuel] loop iterations can serve. *)
Definition op_ok (fuel : nat) (o : op) : bool :=
  match o with
  | op_write _ value => is_uint32 value
  | op_cb _ avail =>
      (0 <=? avail) && (avail <? 2 ^ 31) && (Z.to_nat avail <=? fuel)%nat
  | _ => true
  end.

(** The activity of each voice is the enable bit of its channel. *)
Definition voices_synced {Stream : Type} (s : MilkymistAC97State Stream) : bool :=
  eqb (active (voice_out s)) (Z.testbit (reg s R_D_CTRL) 0)
  && eqb (active (voice_in s)) (Z.testbit (reg s R_U_CTRL) 0).

(** Events a channel's callback may produce: playback reads guest memory
    and writes the output voice, record reads the input voice and writes
    guest memory; either may pulse its own completion line. *)
Definition direction_ok (ch : channel) (e : event) : bool :=
  match ch, e with
  | Download, cpu_physical_memory_read _ _
  | Download, AUD_write_call _ _
  | Download, qemu_irq_pulse dmar_irq
  | Upload, AUD_read_call _ _
  | Upload, cpu_physical_memory_write _ _
  | Upload, qemu_irq_pulse dmaw_irq => true
  | _, _ => false
  end.

(** Sizes that fit the callback's local buffer [buf]. *)
Definition chunk_ok (e : event) : bool :=
  match e with
  | cpu_physical_memory_write _ len
  | cpu_physical_memory_read _ len => (1 <=? len) && (len <=? sizeof_buf)
  | AUD_read_call size n
  | AUD_write_call size n =>
      (1 <=? size) && (size <=? sizeof_buf) && (0 <=? n) && (n <=? size)
  | _ => true
  end.

(** Guest memory is accessed at a cursor that starts at [addr] and advances
    by the bytes moved: a record write of [len] bytes moves it by [len], a
    playback read moves it by what the output voice then takes. *)
Fixpoint mem_cursor (addr : Z) (evs : list event) : bool :=
  match evs with
  | [] => true
  | cpu_physical_memory_write a len :: evs' =>
      (a =? addr) && mem_cursor (wrap32 (addr + len)) evs'
  | cpu_physical_memory_read a _ :: AUD_write_call _ copied :: evs' =>
      (a =? addr) && mem_cursor (wrap32 (addr + copied)) evs'
  | cpu_physical_memory_read _ _ :: _ => false
  | _ :: evs' => mem_cursor addr evs'
  end.

(** Sum of the byte counts offered by a sequence of callbacks. *)
Definition total_avail (avails : list Z) : Z := foldr Z.add 0 avails.

Section Machine.

Context {Stream : Type}.
Variable AUD_read : Stream -> Z -> Z * Stream.
Variable AUD_write : Stream -> Z -> Z * Stream.

Definition step (fuel : nat) (s : MilkymistAC97State Stream) (o : op)
  : option (MilkymistAC97State Stream * list event) :=
  match o with
  | op_read addr => let '(_, s', evs) := ac97_read s addr in Some (s', evs)
  | op_write addr value => Some (ac97_write s addr value)
  | op_cb ch avail => capacity_cb AUD_read AUD_write ch fuel s avail
  | op_reset => Some (milkymist_ac97_reset s, [])
  | op_post_load version_id => Some (snd (ac97_post_load s version_id), [])
  end.

Fixpoint run (fuel : nat) (s : MilkymistAC97State Stream) (ops : list op)
  : option (MilkymistAC97State Stream * list event) :=
  match ops with
  | [] => Some (s, [])
  | o :: ops' =>
      match step fuel s o with
      | None => None
      | Some (s', evs) =>
          match run fuel s' ops' with
          | None => None
          | Some (s'', evs') => Some (s'', evs ++ evs')
          end
      end
  end.

(** The events of one loop iteration that got [n] bytes for a request of
    [to_copy] at [addr]. *)
Definition chunk_events (ch : channel) (addr to_copy n : Z) : list event :=
  match ch with
  | Download =>
      [cpu_physical_memory_read addr to_copy; AUD_write_call to_copy n]
  | Upload =>
      if c_true n
      then [AUD_read_call to_copy n; cpu_physical_memory_write addr n]
      else [AUD_read_call to_copy n]
  end.

(** The two transfer loops seen as one, indexed by the channel; shown
    below to be [ac97_out_cb_loop] and [ac97_in_cb_loop]. *)
Fixpoint dma_loop (ch : channel) (fuel : nat) (sw : Stream)
    (temp addr transferred : Z) : option (Stream * Z * Z * list event) :=
  if c_true temp then
    match fuel with
    | O => None
    | S fuel' =>
        let to_copy := to_int (audio_MIN (to_size_t temp) sizeof_buf) in
        let '(n, sw') := AUD_move AUD_read AUD_write ch sw to_copy in
        if negb (c_true n) then
          Some (sw', addr, transferred, chunk_events ch addr to_copy n)
        else
          match dma_loop ch fuel' sw' (to_int (temp - n))
                  (wrap32 (addr + n)) (to_int (transferred + n)) with
          | None => None
          | Some (sw'', addr', transferred', evs) =>
              Some (sw'', addr', transferred',
                    chunk_events ch addr to_copy n ++ evs)
          end
    end
  else Some (sw, addr, transferred, []).

(** The state a callback leaves when its voice has moved on to stream
    [sw] and [m] bytes were moved. *)
Definition after_transfer (ch : channel) (s : MilkymistAC97State Stream)
    (sw : Stream) (m : Z) : MilkymistAC97State Stream :=
  set_reg
    (set_reg (set_stream ch s sw) (ADDR ch) (wrap32 (reg s (ADDR ch) + m)))
    (REMAINING ch) (reg s (REMAINING ch) - m).

(** The completion pulse of a callback that had [want] bytes to move and
    moved [m] of them. *)
Definition completion_pulse (ch : channel) (s : MilkymistAC97State Stream)
    (want m : Z) : list event :=
  if (0 <? want) && Z.testbit (reg s (CTRL ch)) 0
     && (reg s (REMAINING ch) - m =? 0)
  then [qemu_irq_pulse (completion_irq ch)] else [].

End Machine.

(** The same record channel in front of a backend with nothing in stock. *)
Definition record_dry : MilkymistAC97State Z :=
  state_of_regs 0 [0; 0; 0; 0; 0; 0; 0; 0; 1; 0x2000; 8].

(** A run through all five entry points. *)
Definition sample_ops : list op :=
  [op_write 0x20 1; op_cb Upload 4; op_read 0x28; op_post_load 1;
   op_write 0x00 3; op_cb Download 2; op_reset].

(** * Properties *)

(** ** Bit masks *)

Lemma land_shiftl_1 (v n : Z) :
  0 <= n -> Z.land v (Z.shiftl 1 n) = if Z.testbit v n then 2 ^ n else 0.
Proof.
  intros Hn. rewrite Z.shiftl_1_l. apply Z.bits_inj'. intros m Hm.
  rewrite Z.land_spec, Z.pow2_bits_eqb by lia.
  destruct (Z.eqb_spec n m) as [->|Hne].
  - destruct (Z.testbit v m); simpl.
    + rewrite Z.pow2_bits_eqb by lia. symmetry. apply Z.eqb_refl.
    + now rewrite Z.bits_0.
  - rewrite andb_false_r. destruct (Z.testbit v n).
    + rewrite Z.pow2_bits_eqb by lia. symmetry. now apply Z.eqb_neq.
    + now rewrite Z.bits_0.
Qed.

Lemma c_true_land_bit (v n : Z) :
  0 <= n -> c_true (Z.land v (Z.shiftl 1 n)) = Z.testbit v n.
Proof.
  intros Hn. rewrite land_shiftl_1 by assumption. unfold c_true.
  destruct (Z.testbit v n); [|reflexivity].
  apply negb_true_iff, Z.eqb_neq. pose proof (Z.pow_pos_nonneg 2 n). lia.
Qed.

Lemma c_true_CTRL_EN (v : Z) : c_true (Z.land v CTRL_EN) = Z.testbit v 0.
Proof. apply c_true_land_bit. lia. Qed.

Lemma c_true_RQEN (v : Z) : c_true (Z.land v AC97_CTRL_RQEN) = Z.testbit v 0.
Proof. apply c_true_land_bit. lia. Qed.

Lemma c_true_WRITE (v : Z) : c_true (Z.land v AC97_CTRL_WRITE) = Z.testbit v 1.
Proof. apply c_true_land_bit. lia. Qed.

Lemma clear_RQEN_bits (v n : Z) :
  Z.testbit (Z.land v (Z.lnot AC97_CTRL_RQEN)) n = Z.testbit v n && negb (n =? 0).
Proof.
  destruct (Z.ltb_spec n 0) as [Hneg|Hn].
  - rewrite !Z.testbit_neg_r by assumption. reflexivity.
  - rewrite Z.land_spec, Z.lnot_spec by assumption.
    change AC97_CTRL_RQEN with (2 ^ 0). rewrite Z.pow2_bits_eqb by lia.
    now rewrite (Z.eqb_sym 0 n).
Qed.

(** ** The register array *)

(** Goals on register indices: unfold the enum and decide by arithmetic. *)
Ltac reg_idx :=
  cbn [CTRL ADDR REMAINING] in *;
  unfold R_AC97_CTRL, R_AC97_ADDR, R_AC97_DATAOUT, R_AC97_DATAIN, R_D_CTRL,
    R_D_ADDR, R_D_REMAINING, R_RESERVED, R_U_CTRL, R_U_ADDR, R_U_REMAINING,
    R_MAX in *; lia.

Section Registers.

Context {Stream : Type}.
Local Abbreviation State := (MilkymistAC97State Stream).
Implicit Types (s : State) (i j v : Z).

Lemma regs_ok_length s : regs_ok s = true -> length (regs s) = Z.to_nat R_MAX.
Proof.
  unfold regs_ok. intros H. apply andb_true_iff in H as [H _].
  now apply Nat.eqb_eq in H.
Qed.

Lemma regs_ok_range s i : regs_ok s = true -> 0 <= reg s i < 2 ^ 32.
Proof.
  unfold regs_ok, reg. intros H. apply andb_true_iff in H as [_ H].
  destruct (regs s !! Z.to_nat i) as [x|] eqn:E; simpl; [|lia].
  rewrite forallb_forall in H.
  assert (Hx : is_uint32 x = true).
  { apply H. apply list_elem_of_In. eapply list_elem_of_lookup_2. exact E. }
  unfold is_uint32 in Hx. apply andb_true_iff in Hx as [H1 H2].
  apply Z.leb_le in H1. apply Z.ltb_lt in H2. lia.
Qed.

Lemma reg_set_reg_eq s i v :
  (Z.to_nat i < length (regs s))%nat -> reg (set_reg s i v) i = v.
Proof.
  intros H. unfold reg, set_reg. simpl.
  now rewrite list_lookup_insert_eq.
Qed.

Lemma reg_set_reg_ne s i j v :
  Z.to_nat i <> Z.to_nat j -> reg (set_reg s i v) j = reg s j.
Proof.
  intros H. unfold reg, set_reg. simpl.
  now rewrite list_lookup_insert_ne.
Qed.

Lemma regs_ok_set_reg s i v :
  regs_ok s = true -> is_uint32 v = true -> regs_ok (set_reg s i v) = true.
Proof.
  unfold regs_ok, set_reg. simpl. intros H Hv.
  apply andb_true_iff in H as [Hl Hr]. apply andb_true_iff. split.
  - now rewrite length_insert.
  - rewrite forallb_forall in *. intros x Hx.
    apply list_elem_of_In, list_elem_of_lookup in Hx as [k Hk].
    destruct (decide (Z.to_nat i = k)) as [<-|Hne].
    + destruct (decide (Z.to_nat i < length (regs s))%nat) as [Hlt|Hge].
      * rewrite list_lookup_insert_eq in Hk by assumption. congruence.
      * rewrite list_insert_ge in Hk by lia.
        apply Hr, list_elem_of_In. eapply list_elem_of_lookup_2. exact Hk.
    + rewrite list_lookup_insert_ne in Hk by assumption.
      apply Hr, list_elem_of_In. eapply list_elem_of_lookup_2. exact Hk.
Qed.

Lemma regs_after_transfer s (v_in v_out : SWVoice Stream) (iA iR addr' rem' : Z) :
  regs_ok s = true -> is_uint32 addr' = true -> is_uint32 rem' = true ->
  0 <= iA < R_MAX -> 0 <= iR < R_MAX -> iA <> iR ->
  let s' := {| voice_in := v_in; voice_out := v_out;
               regs := <[Z.to_nat iR := rem']> (<[Z.to_nat iA := addr']> (regs s)) |} in
  regs_ok s' = true /\ reg s' iA = addr' /\ reg s' iR = rem' /\
  (forall j, Z.to_nat j <> Z.to_nat iA -> Z.to_nat j <> Z.to_nat iR ->
             reg s' j = reg s j).
Proof.
  intros Hok HA HR HiA HiR Hne s'.
  pose proof (regs_ok_length s Hok) as Hlen.
  set (s0 := {| voice_in := v_in; voice_out := v_out; regs := regs s |}).
  assert (Hok0 : regs_ok s0 = true) by exact Hok.
  change s' with (set_reg (set_reg s0 iA addr') iR rem').
  split; [|split; [|split]].
  - auto using regs_ok_set_reg.
  - rewrite reg_set_reg_ne by lia. apply reg_set_reg_eq. simpl. lia.
  - apply reg_set_reg_eq. simpl. rewrite length_insert. lia.
  - intros j HjA HjR. rewrite !reg_set_reg_ne by lia. reflexivity.
Qed.

Lemma switch_case_false (addr : Z) (labels : list Z) :
  Forall (fun l => addr <> l) labels -> switch_case addr labels = false.
Proof.
  unfold switch_case. induction 1 as [|l ls Hl _ IH]; simpl; [reflexivity|].
  rewrite IH, orb_false_r. now apply Z.eqb_neq.
Qed.

End Registers.

(** ** Register accesses, reset and restore *)

Section RegisterFile.

Context {Stream : Type}.
Local Abbreviation State := (MilkymistAC97State Stream).
Implicit Types (s : State) (addr value : Z).

Lemma update_voices_regs s : regs (update_voices s) = regs s.
Proof.
  unfold update_voices.
  repeat match goal with |- context [if ?c then _ else _] => destruct c end;
    reflexivity.
Qed.

Lemma update_voices_active s :
  active (voice_out (update_voices s)) = Z.testbit (reg s R_D_CTRL) 0 /\
  active (voice_in (update_voices s)) = Z.testbit (reg s R_U_CTRL) 0 /\
  hw (voice_out (update_voices s)) = hw (voice_out s) /\
  hw (voice_in (update_voices s)) = hw (voice_in s).
Proof.
  rewrite <- !c_true_CTRL_EN. unfold update_voices.
  destruct (c_true (Z.land (reg s R_D_CTRL) CTRL_EN));
    match goal with
    | |- context [reg ?t R_U_CTRL] =>
        progress change (reg t R_U_CTRL) with (reg s R_U_CTRL)
    end;
    destruct (c_true (Z.land (reg s R_U_CTRL) CTRL_EN)); simpl; auto.
Qed.

Lemma ac97_write_AC97_CTRL s addr value :
  Z.shiftr addr 2 = R_AC97_CTRL ->
  ac97_write s addr value
  = (set_reg s R_AC97_CTRL (Z.land value (Z.lnot AC97_CTRL_RQEN)),
     if Z.testbit value 0
     then if Z.testbit value 1
          then [qemu_irq_pulse crrequest_irq]
          else [qemu_irq_pulse crreply_irq]
     else []).
Proof.
  intros Ha. rewrite <- c_true_RQEN, <- c_true_WRITE.
  unfold ac97_write. rewrite Ha. reflexivity.
Qed.

(** C3. Whatever is written to AC97_CTRL, the register reads back as the
    written value with the request-enable bit (bit 0) cleared: bit 0 of the
    value read is clear and every other bit is the written one. *)
Theorem AC97_CTRL_rqen_self_clearing s addr addr' value :
  regs_ok s = true ->
  Z.shiftr addr 2 = R_AC97_CTRL ->
  Z.shiftr addr' 2 = R_AC97_CTRL ->
  let r := fst (fst (ac97_read (fst (ac97_write s addr value)) addr')) in
  r = Z.land value (Z.lnot AC97_CTRL_RQEN) /\
  Z.testbit r 0 = false /\
  (forall n, n <> 0 -> Z.testbit r n = Z.testbit value n).
Proof.
  intros Hok Ha Ha' r.
  assert (Hr : r = Z.land value (Z.lnot AC97_CTRL_RQEN)).
  { subst r. rewrite ac97_write_AC97_CTRL by assumption.
    unfold ac97_read. rewrite Ha'. cbn [fst switch_case existsb Z.eqb R_AC97_CTRL orb].
    apply reg_set_reg_eq. rewrite (regs_ok_length s Hok). reg_idx. }
  split; [exact Hr|]. rewrite Hr. split.
  - rewrite clear_RQEN_bits. simpl. apply andb_false_r.
  - intros n Hn. rewrite clear_RQEN_bits.
    replace (n =? 0) with false by (symmetry; now apply Z.eqb_neq).
    apply andb_true_r.
Qed.

(** C4. A write to AC97_CTRL with request-enable set and direction clear
    pulses the command-reply line once and nothing else; with request-enable
    and direction set it pulses the command-request line once and nothing
    else; with request-enable clear it pulses no line.  The pulse is an
    event of the write itself. *)
Theorem AC97_CTRL_write_pulse s addr value :
  Z.shiftr addr 2 = R_AC97_CTRL ->
  let evs := snd (ac97_write s addr value) in
  (Z.testbit value 0 = true -> Z.testbit value 1 = false ->
   evs = [qemu_irq_pulse crreply_irq]) /\
  (Z.testbit value 0 = true -> Z.testbit value 1 = true ->
   evs = [qemu_irq_pulse crrequest_irq]) /\
  (Z.testbit value 0 = false -> evs = []).
Proof.
  intros Ha evs. subst evs. rewrite ac97_write_AC97_CTRL by assumption.
  cbn [snd]. repeat split.
  - intros -> ->. reflexivity.
  - intros -> ->. reflexivity.
  - intros ->. reflexivity.
Qed.

(** C6. An access whose register index is the reserved index 7 or lies
    outside the array reports the unknown register and changes nothing: the
    read returns 0 and the state is the one before; the write leaves the
    state as it was. *)
Theorem unknown_register_access s addr value :
  Z.shiftr addr 2 = R_RESERVED \/ Z.shiftr addr 2 < 0 \/ R_MAX <= Z.shiftr addr 2 ->
  ac97_read s addr = (0, s, [error_report_read (Z.shiftl (Z.shiftr addr 2) 2)]) /\
  ac97_write s addr value = (s, [error_report_write (Z.shiftr addr 2)]).
Proof.
  intros Hidx. unfold ac97_read, ac97_write.
  set (idx := Z.shiftr addr 2) in *.
  rewrite !switch_case_false; [easy| | | |];
    repeat constructor; reg_idx.
Qed.

(** C7. A write to D_CTRL or to U_CTRL stores the written value as it is,
    leaves the other registers alone and sets the activity of both voices
    from the enable bits now in the registers: playback from bit 0 of
    D_CTRL, record from bit 0 of U_CTRL. *)
Theorem channel_ctrl_write_updates_both_voices s addr value :
  regs_ok s = true ->
  Z.shiftr addr 2 = R_D_CTRL \/ Z.shiftr addr 2 = R_U_CTRL ->
  let s' := fst (ac97_write s addr value) in
  regs s' = <[Z.to_nat (Z.shiftr addr 2) := value]> (regs s) /\
  reg s' (Z.shiftr addr 2) = value /\
  active (voice_out s') = Z.testbit (reg s' R_D_CTRL) 0 /\
  active (voice_in s') = Z.testbit (reg s' R_U_CTRL) 0 /\
  snd (ac97_write s addr value) = [].
Proof.
  intros Hok Hidx s'.
  assert (Hw : ac97_write s addr value
               = (update_voices (set_reg s (Z.shiftr addr 2) value), [])).
  { unfold ac97_write. destruct Hidx as [-> | ->]; reflexivity. }
  subst s'. rewrite Hw. simpl.
  pose proof (update_voices_active (set_reg s (Z.shiftr addr 2) value))
    as (Ho & Hi & _ & _).
  assert (Hregs : forall j, reg (update_voices (set_reg s (Z.shiftr addr 2) value)) j
                         = reg (set_reg s (Z.shiftr addr 2) value) j).
  { intros j. unfold reg. now rewrite update_voices_regs. }
  rewrite !Hregs. repeat split; auto.
  - now rewrite update_voices_regs.
  - apply reg_set_reg_eq. rewrite (regs_ok_length s Hok).
    destruct Hidx as [-> | ->]; reg_idx.
Qed.

(** C8. Restore leaves every register as the snapshot has it and sets the
    activity of each voice from the restored enable bits alone: playback
    from bit 0 of D_CTRL, record from bit 0 of U_CTRL. *)
Theorem post_load_recomputes_activity s version_id :
  let s' := snd (ac97_post_load s version_id) in
  regs s' = regs s /\
  active (voice_out s') = Z.testbit (reg s R_D_CTRL) 0 /\
  active (voice_in s') = Z.testbit (reg s R_U_CTRL) 0 /\
  fst (ac97_post_load s version_id) = 0.
Proof.
  simpl. pose proof (update_voices_active s) as (Ho & Hi & _ & _).
  repeat split; auto using update_voices_regs.
Qed.

(** C9. Reset zeroes all R_MAX registers and deactivates both voices, and
    any number of further resets gives that same state again. *)
Theorem reset_zeroes_and_is_idempotent s :
  length (regs s) = Z.to_nat R_MAX ->
  regs (milkymist_ac97_reset s) = replicate (Z.to_nat R_MAX) 0 /\
  active (voice_in (milkymist_ac97_reset s)) = false /\
  active (voice_out (milkymist_ac97_reset s)) = false /\
  (forall n, Nat.iter (S n) milkymist_ac97_reset s = milkymist_ac97_reset s).
Proof.
  intros Hlen.
  assert (Hreset : forall t : State, length (regs t) = Z.to_nat R_MAX ->
            milkymist_ac97_reset t
            = {| voice_in := {| active := false; hw := hw (voice_in t) |};
                 voice_out := {| active := false; hw := hw (voice_out t) |};
                 regs := replicate (Z.to_nat R_MAX) 0 |}).
  { intros [vi vo rs] Hl. simpl in Hl.
    do 12 (destruct rs as [|? rs]; try discriminate Hl). reflexivity. }
  rewrite (Hreset s Hlen). simpl. repeat split.
  induction n as [|n IH]; simpl in *.
  - apply Hreset, Hlen.
  - rewrite IH. rewrite Hreset; reflexivity.
Qed.

End RegisterFile.

(** ** Integer conversions inside the callbacks *)

Lemma to_int_small (z : Z) : - 2 ^ 31 <= z < 2 ^ 31 -> to_int z = z.
Proof.
  intros H. unfold to_int. rewrite Z.mod_small; lia.
Qed.

Lemma wrap32_small (z : Z) : 0 <= z < 2 ^ 32 -> wrap32 z = z.
Proof. intros H. unfold wrap32. now apply Z.mod_small. Qed.

Lemma wrap32_add_l (a b : Z) : wrap32 (wrap32 a + b) = wrap32 (a + b).
Proof. unfold wrap32. apply Zplus_mod_idemp_l. Qed.

Lemma wrap32_range (z : Z) : is_uint32 (wrap32 z) = true.
Proof.
  unfold is_uint32, wrap32. pose proof (Z.mod_pos_bound z (2 ^ 32)).
  apply andb_true_iff. split; [apply Z.leb_le | apply Z.ltb_lt]; lia.
Qed.

Lemma audio_MIN_min (a b : Z) : audio_MIN a b = Z.min a b.
Proof. unfold audio_MIN. destruct (Z.gtb_spec a b); lia. Qed.

(** [temp = audio_MIN(remaining, avail_b)] for a byte count [avail_b]. *)
Lemma temp_of_count (remaining avail_b : Z) :
  0 <= remaining -> 0 <= avail_b < 2 ^ 31 ->
  to_int (audio_MIN remaining (wrap32 avail_b)) = Z.min remaining avail_b.
Proof.
  intros Hr Ha. rewrite wrap32_small by lia. rewrite audio_MIN_min.
  apply to_int_small. lia.
Qed.

(** [to_copy = audio_MIN(temp, sizeof(buf))] for a positive [temp]. *)
Lemma to_copy_of_temp (temp : Z) :
  0 <= temp < 2 ^ 31 ->
  to_int (audio_MIN (to_size_t temp) sizeof_buf) = Z.min temp sizeof_buf.
Proof.
  intros Ht. unfold to_size_t. rewrite Z.mod_small by lia.
  rewrite audio_MIN_min. apply to_int_small. unfold sizeof_buf. lia.
Qed.

(** The early return: no byte to move. *)
Lemma temp_zero (remaining avail_b : Z) :
  Z.min remaining avail_b = 0 ->
  to_int (audio_MIN remaining (wrap32 avail_b)) = 0.
Proof.
  intros Hm. rewrite audio_MIN_min.
  assert (Hc : remaining = 0 /\ 0 <= avail_b \/ avail_b = 0 /\ 0 <= remaining) by lia.
  destruct Hc as [[-> Ha] | [-> Hr]].
  - pose proof (wrap32_range avail_b) as Hw. unfold is_uint32 in Hw.
    apply andb_true_iff in Hw as [Hw _]. apply Z.leb_le in Hw.
    rewrite Z.min_l by assumption. reflexivity.
  - change (wrap32 0) with 0. rewrite Z.min_r by assumption. reflexivity.
Qed.

Lemma bytes_moved_app (evs evs' : list event) :
  bytes_moved (evs ++ evs') = bytes_moved evs + bytes_moved evs'.
Proof.
  induction evs as [|e evs IH]; simpl; [reflexivity|].
  destruct e; rewrite ?IH; lia.
Qed.

Lemma pulses_app (evs evs' : list event) :
  pulses (evs ++ evs') = pulses evs ++ pulses evs'.
Proof.
  induction evs as [|e evs IH]; simpl; [reflexivity|].
  destruct e; rewrite ?IH; reflexivity.
Qed.

(** ** The DMA callbacks *)

Section DMA.

Context {Stream : Type}.
Local Abbreviation State := (MilkymistAC97State Stream).
Variable AUD_read : Stream -> Z -> Z * Stream.
Variable AUD_write : Stream -> Z -> Z * Stream.

(** The backend's primitives are bounded: asked for [size] bytes they move
    between 0 and [size] bytes. *)
Hypothesis AUD_read_bounded :
  forall sw size, 0 <= size -> 0 <= fst (AUD_read sw size) <= size.
Hypothesis AUD_write_bounded :
  forall sw size, 0 <= size -> 0 <= fst (AUD_write sw size) <= size.

Implicit Types (s : State) (sw : Stream) (fuel : nat).

Lemma loop_result_done AUD call sw addr transferred :
  0 <= addr < 2 ^ 32 ->
  loop_result AUD call sw 0 addr transferred (Some (sw, addr, transferred, [])).
Proof.
  intros Ha. exists sw, []. simpl.
  rewrite !Z.add_0_r, wrap32_small by lia.
  repeat split; auto; try lia; intros; lia.
Qed.

Ltac loop_step Hbounded :=
  match goal with
  | |- context [to_int (audio_MIN (to_size_t ?temp) sizeof_buf)] =>
      rewrite (to_copy_of_temp temp) by lia
  end;
  match goal with
  | |- context [let '(_, _) := ?AUD ?sw ?size in _] =>
      pose proof (Hbounded sw size ltac:(unfold sizeof_buf; lia)) as Hb;
      destruct (AUD sw size) as [n sw1] eqn:Ecall; cbn [fst] in Hb;
      unfold sizeof_buf in Hb
  end.

Lemma ac97_in_cb_loop_spec fuel : forall sw temp addr transferred,
  0 <= temp -> 0 <= transferred -> transferred + temp < 2 ^ 31 ->
  0 <= addr < 2 ^ 32 -> (Z.to_nat temp <= fuel)%nat ->
  loop_result AUD_read AUD_read_call sw temp addr transferred
    (ac97_in_cb_loop AUD_read fuel sw temp addr transferred).
Proof.
  induction fuel as [|fuel IH]; intros sw temp addr transferred Ht Htr Hsum Ha Hf.
  - assert (temp = 0) as -> by lia. now apply loop_result_done.
  - destruct (Z.eq_dec temp 0) as [->|Hnz]; [now apply loop_result_done|].
    cbn [ac97_in_cb_loop].
    replace (c_true temp) with true
      by (symmetry; apply negb_true_iff, Z.eqb_neq; assumption).
    loop_step AUD_read_bounded.
    destruct (Z.eq_dec n 0) as [->|Hn].
    + exists sw1, [AUD_read_call (Z.min temp sizeof_buf) 0]. simpl.
      rewrite !Z.add_0_r, wrap32_small by lia.
      repeat split; auto; try lia.
      * rewrite Ecall. apply list_elem_of_here.
      * rewrite Ecall. simpl. lia.
    + replace (negb (c_true n)) with false
        by (symmetry; apply negb_false_iff, negb_true_iff, Z.eqb_neq; assumption).
      rewrite (to_int_small (temp - n)), (to_int_small (transferred + n)) by lia.
      destruct (IH sw1 (temp - n) (wrap32 (addr + n)) (transferred + n))
        as (sw2 & evs & -> & Hm & Hdata & _); try lia.
      { pose proof (wrap32_range (addr + n)) as Hw. unfold is_uint32 in Hw.
        apply andb_true_iff in Hw as [H1 H2].
        apply Z.leb_le in H1. apply Z.ltb_lt in H2. lia. }
      exists sw2, (AUD_read_call (Z.min temp sizeof_buf) n
                     :: cpu_physical_memory_write addr n :: evs).
      cbn [bytes_moved forallb is_data_movement andb].
      rewrite wrap32_add_l. repeat split; auto; try lia.
      * now rewrite !Z.add_assoc.
      * rewrite Ecall. apply list_elem_of_here.
      * rewrite Ecall. simpl. lia.
Qed.

Lemma ac97_out_cb_loop_spec fuel : forall sw temp addr transferred,
  0 <= temp -> 0 <= transferred -> transferred + temp < 2 ^ 31 ->
  0 <= addr < 2 ^ 32 -> (Z.to_nat temp <= fuel)%nat ->
  loop_result AUD_write AUD_write_call sw temp addr transferred
    (ac97_out_cb_loop AUD_write fuel sw temp addr transferred).
Proof.
  induction fuel as [|fuel IH]; intros sw temp addr transferred Ht Htr Hsum Ha Hf.
  - assert (temp = 0) as -> by lia. now apply loop_result_done.
  - destruct (Z.eq_dec temp 0) as [->|Hnz]; [now apply loop_result_done|].
    cbn [ac97_out_cb_loop].
    replace (c_true temp) with true
      by (symmetry; apply negb_true_iff, Z.eqb_neq; assumption).
    loop_step AUD_write_bounded.
    destruct (Z.eq_dec n 0) as [->|Hn].
    + exists sw1, [cpu_physical_memory_read addr (Z.min temp sizeof_buf);
                   AUD_write_call (Z.min temp sizeof_buf) 0]. simpl.
      rewrite !Z.add_0_r, wrap32_small by lia.
      repeat split; auto; try lia.
      * rewrite Ecall. apply list_elem_of_further, list_elem_of_here.
      * rewrite Ecall. simpl. lia.
    + replace (negb (c_true n)) with false
        by (symmetry; apply negb_false_iff, negb_true_iff, Z.eqb_neq; assumption).
      rewrite (to_int_small (temp - n)), (to_int_small (transferred + n)) by lia.
      destruct (IH sw1 (temp - n) (wrap32 (addr + n)) (transferred + n))
        as (sw2 & evs & -> & Hm & Hdata & _); try lia.
      { pose proof (wrap32_range (addr + n)) as Hw. unfold is_uint32 in Hw.
        apply andb_true_iff in Hw as [H1 H2].
        apply Z.leb_le in H1. apply Z.ltb_lt in H2. lia. }
      exists sw2, (cpu_physical_memory_read addr (Z.min temp sizeof_buf)
                     :: AUD_write_call (Z.min temp sizeof_buf) n :: evs).
      cbn [bytes_moved forallb is_data_movement andb].
      rewrite wrap32_add_l. repeat split; auto; try lia.
      * now rewrite !Z.add_assoc.
      * rewrite Ecall. apply list_elem_of_further, list_elem_of_here.
      * rewrite Ecall. simpl. lia.
Qed.

Lemma pulses_data_movement (evs : list event) :
  forallb is_data_movement evs = true -> pulses evs = [].
Proof.
  induction evs as [|e evs IH]; simpl; [reflexivity|].
  intros H. apply andb_true_iff in H as [He Hevs].
  destruct e; try discriminate He; auto.
Qed.

Lemma filter_data_movement (evs : list event) :
  forallb is_data_movement evs = true -> List.filter is_data_movement evs = evs.
Proof.
  induction evs as [|e evs IH]; simpl; [reflexivity|].
  intros H. apply andb_true_iff in H as [He Hevs].
  rewrite He, IH; auto.
Qed.

(** The callbacks once the loop has ended, for a byte count [avail_b] that
    leaves something to move. *)
Lemma ac97_in_cb_eq fuel s avail_b sw addr' m evs :
  regs_ok s = true -> 0 <= avail_b < 2 ^ 31 ->
  0 < Z.min (reg s R_U_REMAINING) avail_b ->
  ac97_in_cb_loop AUD_read fuel (hw (voice_in s))
    (Z.min (reg s R_U_REMAINING) avail_b) (reg s R_U_ADDR) 0
  = Some (sw, addr', m, evs) ->
  0 <= m <= reg s R_U_REMAINING ->
  ac97_in_cb AUD_read fuel s avail_b
  = Some ({| voice_in := {| active := active (voice_in s); hw := sw |};
             voice_out := voice_out s;
             regs := <[Z.to_nat R_U_REMAINING := reg s R_U_REMAINING - m]>
                       (<[Z.to_nat R_U_ADDR := addr']> (regs s)) |},
          evs ++ (if Z.testbit (reg s R_U_CTRL) 0
                     && (reg s R_U_REMAINING - m =? 0)
                  then [qemu_irq_pulse dmaw_irq] else [])).
Proof.
  intros Hok Ha Hpos Hloop Hm.
  pose proof (regs_ok_range s R_U_REMAINING Hok) as Hrem.
  pose proof (regs_ok_length s Hok) as Hlen.
  unfold ac97_in_cb. rewrite temp_of_count by lia.
  replace (Z.min (reg s R_U_REMAINING) avail_b =? 0) with false
    by (symmetry; apply Z.eqb_neq; lia).
  rewrite Hloop. cbv zeta.
  set (s1 := set_voice_in s _). set (s2 := set_reg s1 R_U_ADDR addr').
  assert (H2 : reg s2 R_U_REMAINING = reg s R_U_REMAINING).
  { subst s2. rewrite reg_set_reg_ne by reg_idx. reflexivity. }
  rewrite H2, (wrap32_small (reg s R_U_REMAINING - m)) by lia.
  set (s3 := set_reg s2 R_U_REMAINING _).
  assert (H3 : reg s3 R_U_REMAINING = reg s R_U_REMAINING - m).
  { subst s3. apply reg_set_reg_eq. subst s2 s1. simpl.
    rewrite length_insert, Hlen. reg_idx. }
  assert (H4 : reg s3 R_U_CTRL = reg s R_U_CTRL).
  { subst s3 s2. rewrite !reg_set_reg_ne by reg_idx. reflexivity. }
  rewrite H3, H4, c_true_CTRL_EN.
  destruct (Z.testbit (reg s R_U_CTRL) 0 && (reg s R_U_REMAINING - m =? 0));
    rewrite ?app_nil_r; reflexivity.
Qed.

Lemma ac97_out_cb_eq fuel s free_b sw addr' m evs :
  regs_ok s = true -> 0 <= free_b < 2 ^ 31 ->
  0 < Z.min (reg s R_D_REMAINING) free_b ->
  ac97_out_cb_loop AUD_write fuel (hw (voice_out s))
    (Z.min (reg s R_D_REMAINING) free_b) (reg s R_D_ADDR) 0
  = Some (sw, addr', m, evs) ->
  0 <= m <= reg s R_D_REMAINING ->
  ac97_out_cb AUD_write fuel s free_b
  = Some ({| voice_in := voice_in s;
             voice_out := {| active := active (voice_out s); hw := sw |};
             regs := <[Z.to_nat R_D_REMAINING := reg s R_D_REMAINING - m]>
                       (<[Z.to_nat R_D_ADDR := addr']> (regs s)) |},
          evs ++ (if Z.testbit (reg s R_D_CTRL) 0
                     && (reg s R_D_REMAINING - m =? 0)
                  then [qemu_irq_pulse dmar_irq] else [])).
Proof.
  intros Hok Ha Hpos Hloop Hm.
  pose proof (regs_ok_range s R_D_REMAINING Hok) as Hrem.
  pose proof (regs_ok_length s Hok) as Hlen.
  unfold ac97_out_cb. rewrite temp_of_count by lia.
  replace (Z.min (reg s R_D_REMAINING) free_b =? 0) with false
    by (symmetry; apply Z.eqb_neq; lia).
  rewrite Hloop. cbv zeta.
  set (s1 := set_voice_out s _). set (s2 := set_reg s1 R_D_ADDR addr').
  assert (H2 : reg s2 R_D_REMAINING = reg s R_D_REMAINING).
  { subst s2. rewrite reg_set_reg_ne by reg_idx. reflexivity. }
  rewrite H2, (wrap32_small (reg s R_D_REMAINING - m)) by lia.
  set (s3 := set_reg s2 R_D_REMAINING _).
  assert (H3 : reg s3 R_D_REMAINING = reg s R_D_REMAINING - m).
  { subst s3. apply reg_set_reg_eq. subst s2 s1. simpl.
    rewrite length_insert, Hlen. reg_idx. }
  assert (H4 : reg s3 R_D_CTRL = reg s R_D_CTRL).
  { subst s3 s2. rewrite !reg_set_reg_ne by reg_idx. reflexivity. }
  rewrite H3, H4, c_true_CTRL_EN.
  destruct (Z.testbit (reg s R_D_CTRL) 0 && (reg s R_D_REMAINING - m =? 0));
    rewrite ?app_nil_r; reflexivity.
Qed.

Lemma is_uint32_intro (z : Z) : 0 <= z < 2 ^ 32 -> is_uint32 z = true.
Proof.
  intros H. unfold is_uint32. apply andb_true_iff.
  split; [apply Z.leb_le | apply Z.ltb_lt]; lia.
Qed.

Lemma cb_result_idle ch s a :
  regs_ok s = true -> Z.min (reg s (REMAINING ch)) a = 0 ->
  cb_result AUD_read AUD_write ch s a (Some (s, [])).
Proof.
  intros Hok Hz. exists s, []. rewrite Hz. simpl.
  pose proof (regs_ok_range s (ADDR ch) Hok).
  rewrite Z.add_0_r, wrap32_small by lia.
  repeat split; auto; try lia.
Qed.

(** The facts of [cb_result] from the state and the events the callback
    leaves once its loop has ended. *)
Ltac cb_finish s iA iR iC :=
  match goal with
  | Hok : regs_ok s = true, Hm : 0 <= bytes_moved ?evs <= _,
    Hdata : forallb is_data_movement ?evs = true |- _ =>
      match goal with
      | |- context [?evs ++ ?p] =>
          assert (Hbm : bytes_moved (evs ++ p) = bytes_moved evs)
            by (rewrite bytes_moved_app;
                match goal with |- context [if ?c then _ else _] =>
                  destruct c end; simpl; lia);
          assert (Hpu : pulses (evs ++ p) = pulses p)
            by (rewrite pulses_app, (pulses_data_movement evs Hdata);
                reflexivity);
          rewrite Hbm, Hpu
      end;
      match goal with
      | |- context [mkState ?vi ?vo (<[_ := ?r]> (<[_ := ?x]> (regs s)))] =>
          destruct (regs_after_transfer s vi vo iA iR x r Hok)
            as (Hok' & HA & HR & Hother);
          [ apply wrap32_range | apply is_uint32_intro; lia
          | reg_idx | reg_idx | reg_idx | ];
          rewrite Hok', HA, HR, (Hother iC) by reg_idx
      end;
      replace (0 <? Z.min (reg s iR) _) with true
        by (symmetry; apply Z.ltb_lt; lia);
      cbn [andb];
      repeat split; try lia;
      try (match goal with |- context [if ?c then _ else _] =>
             destruct c end; reflexivity);
      try (match goal with H : 0 < _ -> _ |- _ =>
             cbv zeta in H; destruct H as [H1 H2]; [lia|];
             first [ apply elem_of_app; left; exact H1 | exact H2 ] end)
  end.

Lemma capacity_cb_spec ch fuel s a :
  regs_ok s = true -> 0 <= a < 2 ^ 31 ->
  (Z.to_nat (Z.min (reg s (REMAINING ch)) a) <= fuel)%nat ->
  cb_result AUD_read AUD_write ch s a (capacity_cb AUD_read AUD_write ch fuel s a).
Proof.
  intros Hok Ha Hfuel.
  destruct (Z.eq_dec (Z.min (reg s (REMAINING ch)) a) 0) as [Hz|Hnz].
  { replace (capacity_cb AUD_read AUD_write ch fuel s a) with (Some (s, @nil event)).
    - now apply cb_result_idle.
    - destruct ch; simpl in *; unfold ac97_out_cb, ac97_in_cb;
        rewrite temp_zero by assumption; reflexivity. }
  pose proof (regs_ok_range s (REMAINING ch) Hok) as Hrem.
  pose proof (regs_ok_range s (ADDR ch) Hok) as Haddr.
  assert (Hpos : 0 < Z.min (reg s (REMAINING ch)) a) by lia.
  unfold cb_result.
  destruct ch; cbn [voice REMAINING ADDR CTRL completion_irq AUD_call AUD_move
                    capacity_cb] in *.
  - destruct (ac97_out_cb_loop_spec fuel (hw (voice_out s))
                (Z.min (reg s R_D_REMAINING) a) (reg s R_D_ADDR) 0)
      as (sw & evs & Hres & Hm & Hdata & Hfirst); try lia.
    rewrite Z.add_0_l in Hres.
    rewrite (ac97_out_cb_eq fuel s a _ _ _ _ Hok Ha Hpos Hres) by lia.
    eexists _, _. split; [reflexivity|].
    cb_finish s R_D_ADDR R_D_REMAINING R_D_CTRL.
  - destruct (ac97_in_cb_loop_spec fuel (hw (voice_in s))
                (Z.min (reg s R_U_REMAINING) a) (reg s R_U_ADDR) 0)
      as (sw & evs & Hres & Hm & Hdata & Hfirst); try lia.
    rewrite Z.add_0_l in Hres.
    rewrite (ac97_in_cb_eq fuel s a _ _ _ _ Hok Ha Hpos Hres) by lia.
    eexists _, _. split; [reflexivity|].
    cb_finish s R_U_ADDR R_U_REMAINING R_U_CTRL.
Qed.

(** What a callback does depends on the state only through the channel's
    stream, ADDR and REMAINING, and, for the pulse alone, through bit 0 of
    CTRL: one run of the loop serves every state [t] that agrees with [s]
    on the first three. *)
Lemma capacity_cb_run ch fuel s a :
  regs_ok s = true -> 0 <= a < 2 ^ 31 ->
  0 < Z.min (reg s (REMAINING ch)) a ->
  (Z.to_nat (Z.min (reg s (REMAINING ch)) a) <= fuel)%nat ->
  exists sw evs,
    forallb is_data_movement evs = true /\
    0 <= bytes_moved evs <= Z.min (reg s (REMAINING ch)) a /\
    forall t : State,
      regs_ok t = true ->
      hw (voice ch t) = hw (voice ch s) ->
      reg t (REMAINING ch) = reg s (REMAINING ch) ->
      reg t (ADDR ch) = reg s (ADDR ch) ->
      capacity_cb AUD_read AUD_write ch fuel t a
      = Some (set_reg
                (set_reg (set_stream ch t sw) (ADDR ch)
                   (wrap32 (reg s (ADDR ch) + bytes_moved evs)))
                (REMAINING ch) (reg s (REMAINING ch) - bytes_moved evs),
              evs ++ (if Z.testbit (reg t (CTRL ch)) 0
                         && (reg s (REMAINING ch) - bytes_moved evs =? 0)
                      then [qemu_irq_pulse (completion_irq ch)] else [])).
Proof.
  intros Hok Ha Hpos Hfuel.
  pose proof (regs_ok_range s (REMAINING ch) Hok) as Hrem.
  pose proof (regs_ok_range s (ADDR ch) Hok) as Haddr.
  destruct ch; cbn [voice REMAINING ADDR CTRL completion_irq capacity_cb] in *.
  - destruct (ac97_out_cb_loop_spec fuel (hw (voice_out s))
                (Z.min (reg s R_D_REMAINING) a) (reg s R_D_ADDR) 0)
      as (sw & evs & Hres & Hm & Hdata & _); try lia.
    rewrite Z.add_0_l in Hres.
    exists sw, evs. split; [assumption|]. split; [assumption|].
    intros t Hokt Hhw HR HA. rewrite <- Hhw, <- HR, <- HA in Hres.
    assert (Hpos_t : 0 < Z.min (reg t R_D_REMAINING) a) by lia.
    assert (Hm_t : 0 <= bytes_moved evs <= reg t R_D_REMAINING) by lia.
    rewrite (ac97_out_cb_eq fuel t a _ _ _ _ Hokt Ha Hpos_t Hres Hm_t).
    rewrite HR, HA. reflexivity.
  - destruct (ac97_in_cb_loop_spec fuel (hw (voice_in s))
                (Z.min (reg s R_U_REMAINING) a) (reg s R_U_ADDR) 0)
      as (sw & evs & Hres & Hm & Hdata & _); try lia.
    rewrite Z.add_0_l in Hres.
    exists sw, evs. split; [assumption|]. split; [assumption|].
    intros t Hokt Hhw HR HA. rewrite <- Hhw, <- HR, <- HA in Hres.
    assert (Hpos_t : 0 < Z.min (reg t R_U_REMAINING) a) by lia.
    assert (Hm_t : 0 <= bytes_moved evs <= reg t R_U_REMAINING) by lia.
    rewrite (ac97_in_cb_eq fuel t a _ _ _ _ Hokt Ha Hpos_t Hres Hm_t).
    rewrite HR, HA. reflexivity.
Qed.

(** Successive callbacks of one channel. *)
Lemma run_cbs_spec ch fuel : forall avails s,
  regs_ok s = true ->
  Forall (fun a => 0 <= a < 2 ^ 31) avails ->
  (Z.to_nat (reg s (REMAINING ch)) <= fuel)%nat ->
  exists s' evs,
    run_cbs (capacity_cb AUD_read AUD_write ch fuel) s avails = Some (s', evs) /\
    regs_ok s' = true /\
    0 <= bytes_moved evs <= reg s (REMAINING ch) /\
    reg s' (ADDR ch) = wrap32 (reg s (ADDR ch) + bytes_moved evs) /\
    reg s' (REMAINING ch) = reg s (REMAINING ch) - bytes_moved evs.
Proof.
  induction avails as [|a avails IH]; intros s Hok Hav Hfuel.
  - exists s, []. simpl.
    pose proof (regs_ok_range s (ADDR ch) Hok).
    pose proof (regs_ok_range s (REMAINING ch) Hok).
    rewrite Z.add_0_r, wrap32_small by lia. repeat split; auto; lia.
  - apply Forall_cons in Hav as [Ha Hav].
    pose proof (regs_ok_range s (REMAINING ch) Hok) as Hrem.
    destruct (capacity_cb_spec ch fuel s a Hok Ha ltac:(lia))
      as (s1 & evs1 & Hcb & Hok1 & Hm1 & HA1 & HR1 & _).
    destruct (IH s1 Hok1 Hav ltac:(lia))
      as (s2 & evs2 & Hrun & Hok2 & Hm2 & HA2 & HR2).
    exists s2, (evs1 ++ evs2). cbn [run_cbs]. rewrite Hcb, Hrun.
    rewrite bytes_moved_app, HA2, HR2, HA1, HR1, wrap32_add_l, Z.add_assoc.
    repeat split; auto; lia.
Qed.

(** C1. After any sequence [pre] of capacity callbacks on a channel that
    started with REMAINING = N and ADDR = A, the next callback, offered [a]
    bytes, returns and moves at most min (REMAINING, a) bytes; the bytes
    moved by all callbacks so far never exceed N; ADDR has advanced by
    exactly the bytes moved and REMAINING has shrunk by exactly the bytes
    moved, in this callback and in total; REMAINING is never below zero.
    ADDR is a 32-bit register: the advance is taken modulo 2^32, and is the
    plain sum whenever A + N stays below 2^32. *)
Theorem monotonic_dma_progress ch fuel s pre a :
  regs_ok s = true ->
  Forall (fun x => 0 <= x < 2 ^ 31) (pre ++ [a]) ->
  (Z.to_nat (reg s (REMAINING ch)) <= fuel)%nat ->
  exists s1 evs1 s2 evs2,
    run_cbs (capacity_cb AUD_read AUD_write ch fuel) s pre = Some (s1, evs1) /\
    capacity_cb AUD_read AUD_write ch fuel s1 a = Some (s2, evs2) /\
    0 <= bytes_moved evs2 <= Z.min (reg s1 (REMAINING ch)) a /\
    reg s2 (ADDR ch) = wrap32 (reg s1 (ADDR ch) + bytes_moved evs2) /\
    reg s2 (REMAINING ch) = reg s1 (REMAINING ch) - bytes_moved evs2 /\
    0 <= bytes_moved evs1 + bytes_moved evs2 <= reg s (REMAINING ch) /\
    reg s2 (ADDR ch)
    = wrap32 (reg s (ADDR ch) + (bytes_moved evs1 + bytes_moved evs2)) /\
    reg s2 (REMAINING ch)
    = reg s (REMAINING ch) - (bytes_moved evs1 + bytes_moved evs2) /\
    0 <= reg s2 (REMAINING ch) /\
    (reg s (ADDR ch) + reg s (REMAINING ch) < 2 ^ 32 ->
     reg s2 (ADDR ch) = reg s (ADDR ch) + (bytes_moved evs1 + bytes_moved evs2)).
Proof.
  intros Hok Hav Hfuel.
  apply Forall_app in Hav as [Hpre Ha]. apply Forall_cons in Ha as [Ha _].
  pose proof (regs_ok_range s (REMAINING ch) Hok) as Hrem.
  pose proof (regs_ok_range s (ADDR ch) Hok) as Haddr.
  destruct (run_cbs_spec ch fuel pre s Hok Hpre Hfuel)
    as (s1 & evs1 & Hrun & Hok1 & Hm1 & HA1 & HR1).
  destruct (capacity_cb_spec ch fuel s1 a Hok1 Ha ltac:(lia))
    as (s2 & evs2 & Hcb & Hok2 & Hm2 & HA2 & HR2 & _).
  exists s1, evs1, s2, evs2.
  assert (Htotal : reg s2 (ADDR ch)
            = wrap32 (reg s (ADDR ch) + (bytes_moved evs1 + bytes_moved evs2))).
  { rewrite HA2, HA1, wrap32_add_l, Z.add_assoc. reflexivity. }
  repeat split; auto; try lia.
  intros Hfit. rewrite Htotal. apply wrap32_small. lia.
Qed.

(** C2. A capacity callback pulses at most the channel's own completion
    line (DMA-read for playback, DMA-write for record), at most once, and
    it does so exactly when it had something to move and, after its update,
    the enable bit is set and REMAINING is zero; on a channel whose
    REMAINING is already zero it pulses nothing. *)
Theorem completion_pulse_once_on_depletion ch fuel s a :
  regs_ok s = true ->
  0 <= a < 2 ^ 31 ->
  (Z.to_nat (Z.min (reg s (REMAINING ch)) a) <= fuel)%nat ->
  exists s' evs,
    capacity_cb AUD_read AUD_write ch fuel s a = Some (s', evs) /\
    (pulses evs = [] \/ pulses evs = [completion_irq ch]) /\
    (pulses evs = [completion_irq ch] <->
     0 < Z.min (reg s (REMAINING ch)) a /\
     Z.testbit (reg s' (CTRL ch)) 0 = true /\
     reg s' (REMAINING ch) = 0) /\
    (reg s (REMAINING ch) = 0 -> pulses evs = []) /\
    completion_irq Download = dmar_irq /\ completion_irq Upload = dmaw_irq.
Proof.
  intros Hok Ha Hfuel.
  destruct (capacity_cb_spec ch fuel s a Hok Ha Hfuel)
    as (s' & evs & Hcb & _ & Hm & _ & HR & HC & Hp & _).
  exists s', evs. split; [exact Hcb|].
  rewrite HC, HR, Hp.
  destruct (Z.ltb_spec 0 (Z.min (reg s (REMAINING ch)) a)) as [Hpos|Hle];
    destruct (Z.testbit (reg s (CTRL ch)) 0);
    destruct (Z.eqb_spec (reg s (REMAINING ch) - bytes_moved evs) 0) as [Hz|Hnz];
    cbn [andb]; repeat split; auto; try lia; try discriminate;
    try (intros (? & ? & ?); first [lia | discriminate]);
    try (intros ->; lia).
Qed.

(** C5. When min (REMAINING, available) is zero the callback returns at
    once: the state, registers included, is the one before, and there is no
    event at all, so no data movement and no pulse. *)
Theorem zero_capacity_cb_is_noop ch fuel s a :
  Z.min (reg s (REMAINING ch)) a = 0 ->
  capacity_cb AUD_read AUD_write ch fuel s a = Some (s, []).
Proof.
  intros Hz. destruct ch; cbn [capacity_cb REMAINING] in *;
    unfold ac97_out_cb, ac97_in_cb; rewrite temp_zero by assumption;
    reflexivity.
Qed.

(** C10. With the channel's enable bit clear and min (REMAINING,
    available) positive, the callback still calls the backend for the first
    chunk, moves what the backend moves, and advances ADDR and shrinks
    REMAINING by the bytes moved; it pulses nothing.  Whatever value [v]
    CTRL holds instead, enable bit set or not, the data movement and the
    updates of the other registers are the same: the enable bit decides the
    pulse alone. *)
Theorem enable_bit_gates_only_the_pulse ch fuel s a :
  regs_ok s = true ->
  0 <= a < 2 ^ 31 ->
  0 < Z.min (reg s (REMAINING ch)) a ->
  Z.testbit (reg s (CTRL ch)) 0 = false ->
  (Z.to_nat (Z.min (reg s (REMAINING ch)) a) <= fuel)%nat ->
  exists s' evs,
    capacity_cb AUD_read AUD_write ch fuel s a = Some (s', evs) /\
    (let size := Z.min (Z.min (reg s (REMAINING ch)) a) sizeof_buf in
     let n := fst (AUD_move AUD_read AUD_write ch (hw (voice ch s)) size) in
     AUD_call ch size n ∈ evs /\ n <= bytes_moved evs) /\
    reg s' (ADDR ch) = wrap32 (reg s (ADDR ch) + bytes_moved evs) /\
    reg s' (REMAINING ch) = reg s (REMAINING ch) - bytes_moved evs /\
    pulses evs = [] /\
    forall v, is_uint32 v = true ->
      exists s'v evsv,
        capacity_cb AUD_read AUD_write ch fuel (set_reg s (CTRL ch) v) a
        = Some (s'v, evsv) /\
        List.filter is_data_movement evsv = evs /\
        regs s'v = <[Z.to_nat (CTRL ch) := v]> (regs s') /\
        voice_in s'v = voice_in s' /\ voice_out s'v = voice_out s'.
Proof.
  intros Hok Ha Hpos Hbit Hfuel.
  destruct (capacity_cb_spec ch fuel s a Hok Ha Hfuel)
    as (s' & evs & Hcb & _ & Hm & HA & HR & _ & Hp & Hfirst).
  destruct (capacity_cb_run ch fuel s a Hok Ha Hpos Hfuel)
    as (sw & evl & Hdata & Hml & Hall).
  pose proof (Hall s Hok eq_refl eq_refl eq_refl) as Hs.
  rewrite Hbit in Hs, Hp. cbn [andb] in Hs. rewrite app_nil_r, Hcb in Hs.
  rewrite andb_false_r in Hp. cbn [andb] in Hp.
  injection Hs as Hs' Hevs. subst evs.
  exists s', evl. repeat split; auto; try (apply Hfirst; exact Hpos).
  intros v Hv.
  assert (Hokv : regs_ok (set_reg s (CTRL ch) v) = true)
    by auto using regs_ok_set_reg.
  assert (Hhw : hw (voice ch (set_reg s (CTRL ch) v)) = hw (voice ch s))
    by (destruct ch; reflexivity).
  assert (HRv : reg (set_reg s (CTRL ch) v) (REMAINING ch) = reg s (REMAINING ch))
    by (apply reg_set_reg_ne; destruct ch; reg_idx).
  assert (HAv : reg (set_reg s (CTRL ch) v) (ADDR ch) = reg s (ADDR ch))
    by (apply reg_set_reg_ne; destruct ch; reg_idx).
  rewrite (Hall _ Hokv Hhw HRv HAv). eexists _, _. split; [reflexivity|].
  split; [|split; [|split]].
  - rewrite List.filter_app, (filter_data_movement evl Hdata).
    match goal with |- context [if ?c then _ else _] => destruct c end;
      simpl; apply app_nil_r.
  - rewrite Hs'. cbn [set_reg regs].
    rewrite (list_insert_insert_ne _ (Z.to_nat (CTRL ch))
               (Z.to_nat (REMAINING ch)) v) by (destruct ch; reg_idx).
    rewrite (list_insert_insert_ne _ (Z.to_nat (CTRL ch))
               (Z.to_nat (ADDR ch)) v) by (destruct ch; reg_idx).
    destruct ch; reflexivity.
  - rewrite Hs'. destruct ch; reflexivity.
  - rewrite Hs'. destruct ch; reflexivity.
Qed.

End DMA.

(** * Concrete runs *)

Lemma full_backend_bounded (sw : unit) (size : Z) :
  0 <= size -> 0 <= fst (full_backend sw size) <= size.
Proof. intros H. simpl. lia. Qed.

Lemma supply_backend_bounded (sw size : Z) :
  0 <= size -> 0 <= fst (supply_backend sw size) <= size.
Proof. intros H. unfold supply_backend. simpl. lia. Qed.

(** The scenario of the spec: three callbacks of 4096, 4096 and 100 bytes
    on the programmed playback channel, the backend taking every request. *)
Example playback_scenario :
  regs playback_programmed = [0; 0; 0; 0; 1; 0x1000; 8192; 0; 0; 0; 0] /\
  active (voice_out playback_programmed) = true /\
  option_map (fun r => (regs (fst r), pulses (snd r)))
    (ac97_out_cb full_backend 1 playback_programmed 4096)
  = Some ([0; 0; 0; 0; 1; 0x2000; 4096; 0; 0; 0; 0], []) /\
  option_map (fun r => (regs (fst r), pulses (snd r)))
    (run_cbs (ac97_out_cb full_backend 1) playback_programmed [4096; 4096])
  = Some ([0; 0; 0; 0; 1; 0x3000; 0; 0; 0; 0; 0], [dmar_irq]) /\
  option_map (fun r => (regs (fst r), pulses (snd r)))
    (run_cbs (ac97_out_cb full_backend 1) playback_programmed [4096; 4096; 100])
  = Some ([0; 0; 0; 0; 1; 0x3000; 0; 0; 0; 0; 0], [dmar_irq]).
Proof. vm_compute. repeat split. Qed.

(** A backend that runs dry: 5 bytes in stock, 8 asked for. *)
Example record_short_transfer :
  option_map (fun r => (regs (fst r), snd r))
    (ac97_in_cb supply_backend 8 record_idle 100)
  = Some ([0; 0; 0; 0; 0; 0; 0; 0; 0; 0x2005; 3],
          [AUD_read_call 8 5; cpu_physical_memory_write 0x2000 5;
           AUD_read_call 3 0]).
Proof. vm_compute. reflexivity. Qed.

(** The address register wraps at 2^32. *)
Example record_addr_wraps :
  option_map (fun r => regs (fst r))
    (ac97_in_cb full_backend 2
       (state_of_regs tt [0; 0; 0; 0; 0; 0; 0; 0; 1; 0xFFFFFFFF; 2]) 2)
  = Some [0; 0; 0; 0; 0; 0; 0; 0; 1; 1; 0].
Proof. vm_compute. reflexivity. Qed.

(** * The theorems at concrete inputs *)

(** Two callbacks of 3 and 4 bytes on the record channel of [record_idle],
    whose backend has 5 bytes in stock. *)
Lemma monotonic_dma_progress_witness :
  regs_ok record_idle = true /\
  Forall (fun x => 0 <= x < 2 ^ 31) ([3] ++ [4]) /\
  (Z.to_nat (reg record_idle (REMAINING Upload)) <= 8)%nat /\
  exists s1 evs1 s2 evs2,
    run_cbs (capacity_cb supply_backend supply_backend Upload 8) record_idle [3]
    = Some (s1, evs1) /\
    capacity_cb supply_backend supply_backend Upload 8 s1 4 = Some (s2, evs2) /\
    0 <= bytes_moved evs1 + bytes_moved evs2 <= 8 /\
    reg s2 R_U_REMAINING = 8 - (bytes_moved evs1 + bytes_moved evs2).
Proof.
  assert (H1 : regs_ok record_idle = true) by reflexivity.
  assert (H2 : Forall (fun x => 0 <= x < 2 ^ 31) ([3] ++ [4]))
    by (repeat constructor; lia).
  assert (H3 : (Z.to_nat (reg record_idle (REMAINING Upload)) <= 8)%nat)
    by (vm_compute; lia).
  repeat split; try assumption.
  destruct (monotonic_dma_progress supply_backend supply_backend
              supply_backend_bounded supply_backend_bounded
              Upload 8%nat record_idle [3] 4 H1 H2 H3)
    as (s1 & evs1 & s2 & evs2 & Hrun & Hcb & _ & _ & _ & Hsum & _ & Hrem & _).
  exists s1, evs1, s2, evs2. repeat split; try assumption; apply Hsum.
Defined.

Lemma completion_pulse_once_on_depletion_witness :
  regs_ok playback_small = true /\
  0 <= 100 < 2 ^ 31 /\
  (Z.to_nat (Z.min (reg playback_small (REMAINING Download)) 100) <= 8)%nat /\
  exists s' evs,
    capacity_cb full_backend full_backend Download 8 playback_small 100
    = Some (s', evs) /\
    (pulses evs = [] \/ pulses evs = [dmar_irq]).
Proof.
  assert (H1 : regs_ok playback_small = true) by reflexivity.
  assert (H2 : 0 <= 100 < 2 ^ 31) by lia.
  assert (H3 : (Z.to_nat (Z.min (reg playback_small (REMAINING Download)) 100)
                <= 8)%nat) by (vm_compute; lia).
  repeat split; try assumption; try lia.
  destruct (completion_pulse_once_on_depletion full_backend full_backend
              full_backend_bounded full_backend_bounded
              Download 8%nat playback_small 100 H1 H2 H3)
    as (s' & evs & Hcb & Hp & _).
  exists s', evs. split; assumption.
Defined.

Lemma AC97_CTRL_rqen_self_clearing_witness :
  regs_ok reset_state = true /\
  Z.shiftr 0 2 = R_AC97_CTRL /\ Z.shiftr 3 2 = R_AC97_CTRL /\
  fst (fst (ac97_read (fst (ac97_write reset_state 0 7)) 3)) = 6.
Proof.
  split; [reflexivity|]. split; [reflexivity|]. split; [reflexivity|].
  exact (proj1 (AC97_CTRL_rqen_self_clearing reset_state 0 3 7
                  eq_refl eq_refl eq_refl)).
Defined.

Lemma AC97_CTRL_write_pulse_witness :
  Z.shiftr 0 2 = R_AC97_CTRL /\
  snd (ac97_write reset_state 0 1) = [qemu_irq_pulse crreply_irq] /\
  snd (ac97_write reset_state 0 3) = [qemu_irq_pulse crrequest_irq] /\
  snd (ac97_write reset_state 0 2) = [].
Proof.
  split; [reflexivity|]. split; [|split].
  - exact (proj1 (AC97_CTRL_write_pulse reset_state 0 1 eq_refl)
             eq_refl eq_refl).
  - exact (proj1 (proj2 (AC97_CTRL_write_pulse reset_state 0 3 eq_refl))
             eq_refl eq_refl).
  - exact (proj2 (proj2 (AC97_CTRL_write_pulse reset_state 0 2 eq_refl))
             eq_refl).
Defined.

Lemma zero_capacity_cb_is_noop_witness :
  Z.min (reg record_idle (REMAINING Upload)) 0 = 0 /\
  capacity_cb supply_backend supply_backend Upload 0 record_idle 0
  = Some (record_idle, []).
Proof.
  split; [reflexivity|].
  exact (zero_capacity_cb_is_noop supply_backend supply_backend Upload 0%nat
           record_idle 0 eq_refl).
Defined.

Lemma unknown_register_access_witness :
  (Z.shiftr 0x1c 2 = R_RESERVED \/ Z.shiftr 0x1c 2 < 0 \/ R_MAX <= Z.shiftr 0x1c 2) /\
  ac97_read playback_programmed 0x1c
  = (0, playback_programmed, [error_report_read 0x1c]) /\
  ac97_write playback_programmed 0x1c 5
  = (playback_programmed, [error_report_write 7]).
Proof.
  assert (H : Z.shiftr 0x1c 2 = R_RESERVED \/ Z.shiftr 0x1c 2 < 0
              \/ R_MAX <= Z.shiftr 0x1c 2) by (left; reflexivity).
  split; [exact H|].
  exact (unknown_register_access playback_programmed 0x1c 5 H).
Defined.

Lemma channel_ctrl_write_updates_both_voices_witness :
  regs_ok playback_programmed = true /\
  (Z.shiftr 0x20 2 = R_D_CTRL \/ Z.shiftr 0x20 2 = R_U_CTRL) /\
  active (voice_out (fst (ac97_write playback_programmed 0x20 1))) = true /\
  active (voice_in (fst (ac97_write playback_programmed 0x20 1))) = true.
Proof.
  assert (H1 : regs_ok playback_programmed = true) by reflexivity.
  assert (H2 : Z.shiftr 0x20 2 = R_D_CTRL \/ Z.shiftr 0x20 2 = R_U_CTRL)
    by (right; reflexivity).
  split; [exact H1|]. split; [exact H2|]. split.
  - exact (proj1 (proj2 (proj2
             (channel_ctrl_write_updates_both_voices playback_programmed 0x20 1 H1 H2)))).
  - exact (proj1 (proj2 (proj2 (proj2
             (channel_ctrl_write_updates_both_voices playback_programmed 0x20 1 H1 H2))))).
Defined.

Lemma reset_zeroes_and_is_idempotent_witness :
  length (regs playback_programmed) = Z.to_nat R_MAX /\
  regs (milkymist_ac97_reset playback_programmed) = [0; 0; 0; 0; 0; 0; 0; 0; 0; 0; 0] /\
  Nat.iter 3 milkymist_ac97_reset playback_programmed
  = milkymist_ac97_reset playback_programmed.
Proof.
  split; [reflexivity|]. split.
  - exact (proj1 (reset_zeroes_and_is_idempotent playback_programmed eq_refl)).
  - exact (proj2 (proj2 (proj2
             (reset_zeroes_and_is_idempotent playback_programmed eq_refl))) 2%nat).
Defined.

Lemma enable_bit_gates_only_the_pulse_witness :
  regs_ok record_idle = true /\
  0 <= 100 < 2 ^ 31 /\
  0 < Z.min (reg record_idle (REMAINING Upload)) 100 /\
  Z.testbit (reg record_idle (CTRL Upload)) 0 = false /\
  (Z.to_nat (Z.min (reg record_idle (REMAINING Upload)) 100) <= 8)%nat /\
  exists s' evs,
    capacity_cb supply_backend supply_backend Upload 8 record_idle 100
    = Some (s', evs) /\
    reg s' R_U_REMAINING = 8 - bytes_moved evs /\
    pulses evs = [].
Proof.
  assert (H1 : regs_ok record_idle = true) by reflexivity.
  assert (H2 : 0 <= 100 < 2 ^ 31) by lia.
  assert (H3 : 0 < Z.min (reg record_idle (REMAINING Upload)) 100)
    by (vm_compute; reflexivity).
  assert (H4 : Z.testbit (reg record_idle (CTRL Upload)) 0 = false)
    by reflexivity.
  assert (H5 : (Z.to_nat (Z.min (reg record_idle (REMAINING Upload)) 100) <= 8)%nat)
    by (vm_compute; lia).
  repeat split; try assumption; try lia.
  destruct (enable_bit_gates_only_the_pulse supply_backend supply_backend
              supply_backend_bounded supply_backend_bounded
              Upload 8%nat record_idle 100 H1 H2 H3 H4 H5)
    as (s' & evs & Hcb & _ & _ & Hrem & Hp & _).
  exists s', evs. repeat split; assumption.
Defined.

(** * Further properties of the register file *)

Section RegisterFileMore.

Context {Stream : Type}.
Local Abbreviation State := (MilkymistAC97State Stream).
Implicit Types (s : State) (addr value : Z).

Lemma update_voices_eq s :
  update_voices s
  = {| voice_in := {| active := Z.testbit (reg s R_U_CTRL) 0;
                      hw := hw (voice_in s) |};
       voice_out := {| active := Z.testbit (reg s R_D_CTRL) 0;
                       hw := hw (voice_out s) |};
       regs := regs s |}.
Proof.
  rewrite <- !c_true_CTRL_EN. unfold update_voices.
  destruct (c_true (Z.land (reg s R_D_CTRL) CTRL_EN));
    match goal with
    | |- context [reg ?t R_U_CTRL] =>
        progress change (reg t R_U_CTRL) with (reg s R_U_CTRL)
    end;
    destruct (c_true (Z.land (reg s R_U_CTRL) CTRL_EN)); reflexivity.
Qed.

(** The four arms of the [switch] of [ac97_write]. *)
Inductive write_arm (idx : Z) : Type :=
| arm_command : idx = R_AC97_CTRL -> write_arm idx
| arm_channel : idx = R_D_CTRL \/ idx = R_U_CTRL -> write_arm idx
| arm_plain :
    idx = R_AC97_ADDR \/ idx = R_AC97_DATAOUT \/ idx = R_AC97_DATAIN \/
    idx = R_D_ADDR \/ idx = R_D_REMAINING \/ idx = R_U_ADDR \/
    idx = R_U_REMAINING -> write_arm idx
| arm_unknown : idx = R_RESERVED \/ idx < 0 \/ R_MAX <= idx -> write_arm idx.

Lemma write_arm_of (idx : Z) : write_arm idx.
Proof.
  destruct (Z.eq_dec idx R_AC97_CTRL); [now apply arm_command|].
  destruct (Z.eq_dec idx R_D_CTRL); [apply arm_channel; now left|].
  destruct (Z.eq_dec idx R_U_CTRL); [apply arm_channel; now right|].
  destruct (Z.eq_dec idx R_RESERVED); [apply arm_unknown; now left|].
  destruct (Z_lt_dec idx 0); [apply arm_unknown; right; now left|].
  destruct (Z_le_dec R_MAX idx); [apply arm_unknown; right; now right|].
  apply arm_plain. reg_idx.
Qed.

Lemma ac97_write_channel s addr value :
  Z.shiftr addr 2 = R_D_CTRL \/ Z.shiftr addr 2 = R_U_CTRL ->
  ac97_write s addr value
  = (update_voices (set_reg s (Z.shiftr addr 2) value), []).
Proof. intros H. unfold ac97_write. destruct H as [-> | ->]; reflexivity. Qed.

Lemma ac97_write_plain s addr value :
  Z.shiftr addr 2 = R_AC97_ADDR \/ Z.shiftr addr 2 = R_AC97_DATAOUT \/
  Z.shiftr addr 2 = R_AC97_DATAIN \/ Z.shiftr addr 2 = R_D_ADDR \/
  Z.shiftr addr 2 = R_D_REMAINING \/ Z.shiftr addr 2 = R_U_ADDR \/
  Z.shiftr addr 2 = R_U_REMAINING ->
  ac97_write s addr value = (set_reg s (Z.shiftr addr 2) value, []).
Proof.
  intros H. unfold ac97_write.
  destruct H as [-> | [-> | [-> | [-> | [-> | [-> | ->]]]]]]; reflexivity.
Qed.

Lemma ac97_write_unknown s addr value :
  Z.shiftr addr 2 = R_RESERVED \/ Z.shiftr addr 2 < 0 \/ R_MAX <= Z.shiftr addr 2 ->
  ac97_write s addr value = (s, [error_report_write (Z.shiftr addr 2)]).
Proof.
  intros H. unfold ac97_write. set (idx := Z.shiftr addr 2) in *.
  rewrite !switch_case_false; [reflexivity| | |]; repeat constructor; reg_idx.
Qed.

Lemma ac97_read_defined s addr :
  0 <= Z.shiftr addr 2 < R_MAX -> Z.shiftr addr 2 <> R_RESERVED ->
  ac97_read s addr = (reg s (Z.shiftr addr 2), s, []).
Proof.
  intros H Hne. unfold ac97_read. set (idx := Z.shiftr addr 2) in *.
  assert (Hc : idx = 0 \/ idx = 1 \/ idx = 2 \/ idx = 3 \/ idx = 4 \/ idx = 5
               \/ idx = 6 \/ idx = 8 \/ idx = 9 \/ idx = 10) by reg_idx.
  destruct Hc as [-> | [-> | [-> | [-> | [-> | [-> | [-> | [-> | [-> | ->]]]]]]]]];
    reflexivity.
Qed.

Lemma ac97_read_unknown s addr :
  Z.shiftr addr 2 = R_RESERVED \/ Z.shiftr addr 2 < 0 \/ R_MAX <= Z.shiftr addr 2 ->
  ac97_read s addr = (0, s, [error_report_read (Z.shiftl (Z.shiftr addr 2) 2)]).
Proof.
  intros H. unfold ac97_read. set (idx := Z.shiftr addr 2) in *.
  rewrite switch_case_false; [reflexivity|]. repeat constructor; reg_idx.
Qed.

Lemma reg_update_voices s j : reg (update_voices s) j = reg s j.
Proof. unfold reg. now rewrite update_voices_regs. Qed.

(** X1. A value written to any defined register other than AC97_CTRL is
    read back unchanged through any byte address of the same word; neither
    the write nor the read reports or pulses anything, and the read leaves
    the state as the write left it. *)
Theorem register_write_read_round_trip s addr addr' value :
  regs_ok s = true ->
  Z.shiftr addr' 2 = Z.shiftr addr 2 ->
  0 < Z.shiftr addr 2 < R_MAX ->
  Z.shiftr addr 2 <> R_RESERVED ->
  ac97_read (fst (ac97_write s addr value)) addr'
  = (value, fst (ac97_write s addr value), []) /\
  snd (ac97_write s addr value) = [].
Proof.
  intros Hok Hsame Hidx Hres.
  pose proof (regs_ok_length s Hok) as Hlen.
  rewrite ac97_read_defined by (rewrite Hsame; reg_idx || assumption).
  rewrite Hsame.
  assert (Hreg : reg (set_reg s (Z.shiftr addr 2) value) (Z.shiftr addr 2) = value).
  { apply reg_set_reg_eq. rewrite Hlen. reg_idx. }
  destruct (write_arm_of (Z.shiftr addr 2)) as [H | H | H | H].
  - reg_idx.
  - rewrite ac97_write_channel by assumption. cbn [fst snd].
    now rewrite reg_update_voices, Hreg.
  - rewrite ac97_write_plain by assumption. cbn [fst snd]. now rewrite Hreg.
  - reg_idx.
Qed.

(** X2. A write changes no register but the one addressed: every other
    register, the length of the array and both sample streams are as
    before, whatever the address and the value. *)
Theorem register_write_frame s addr value j :
  0 <= j -> j <> Z.shiftr addr 2 ->
  reg (fst (ac97_write s addr value)) j = reg s j /\
  length (regs (fst (ac97_write s addr value))) = length (regs s) /\
  hw (voice_in (fst (ac97_write s addr value))) = hw (voice_in s) /\
  hw (voice_out (fst (ac97_write s addr value))) = hw (voice_out s).
Proof.
  intros Hj Hne.
  destruct (write_arm_of (Z.shiftr addr 2)) as [H | H | H | H].
  - rewrite ac97_write_AC97_CTRL by assumption. cbn [fst].
    rewrite reg_set_reg_ne by reg_idx. cbn [set_reg regs voice_in voice_out].
    now rewrite length_insert.
  - rewrite ac97_write_channel by assumption. cbn [fst].
    rewrite reg_update_voices, reg_set_reg_ne by (destruct H; reg_idx).
    rewrite update_voices_eq. cbn [set_reg regs voice_in voice_out hw].
    now rewrite length_insert.
  - rewrite ac97_write_plain by assumption. cbn [fst].
    rewrite reg_set_reg_ne by reg_idx. cbn [set_reg regs voice_in voice_out].
    now rewrite length_insert.
  - rewrite ac97_write_unknown by assumption. cbn [fst]. auto.
Qed.

(** X3. Only a write to AC97_CTRL can pulse an interrupt line, and only a
    write to D_CTRL or U_CTRL can change a voice: every other write pulses
    nothing, respectively leaves both voice handles as they were. *)
Theorem register_write_side_effects s addr value :
  (Z.shiftr addr 2 <> R_AC97_CTRL ->
   pulses (snd (ac97_write s addr value)) = []) /\
  (Z.shiftr addr 2 <> R_D_CTRL -> Z.shiftr addr 2 <> R_U_CTRL ->
   voice_in (fst (ac97_write s addr value)) = voice_in s /\
   voice_out (fst (ac97_write s addr value)) = voice_out s).
Proof.
  destruct (write_arm_of (Z.shiftr addr 2)) as [H | H | H | H].
  - rewrite ac97_write_AC97_CTRL by assumption. split; [congruence|].
    intros _ _. split; reflexivity.
  - rewrite ac97_write_channel by assumption. split; [reflexivity|].
    intros H1 H2. destruct H; contradiction.
  - rewrite ac97_write_plain by assumption. split; [reflexivity|].
    intros _ _. split; reflexivity.
  - rewrite ac97_write_unknown by assumption. split; [reflexivity|].
    intros _ _. split; reflexivity.
Qed.

(** X4. The two low bits of the byte address are ignored: the four byte
    addresses of a word reach the same register, for reads and for writes,
    unknown registers included. *)
Theorem misaligned_access_hits_the_word s w k value :
  0 <= k < 4 ->
  ac97_read s (4 * w + k) = ac97_read s (4 * w) /\
  ac97_write s (4 * w + k) value = ac97_write s (4 * w) value.
Proof.
  intros Hk.
  assert (Hs : forall a, Z.shiftr (4 * w + a) 2 = (4 * w + a) / 4)
    by (intros a; now rewrite Z.shiftr_div_pow2 by lia).
  assert (Hw : Z.shiftr (4 * w + k) 2 = Z.shiftr (4 * w) 2).
  { rewrite <- (Z.add_0_r (4 * w)) at 2. rewrite !Hs.
    rewrite !(Z.mul_comm 4 w), !Z.div_add_l by lia.
    rewrite Z.div_small by lia. reflexivity. }
  unfold ac97_read, ac97_write. rewrite Hw. split; reflexivity.
Qed.

(** X15. Restore and a register write commute: writing after the post-load
    hook gives the state that the post-load hook gives after the write, and
    the write reports and pulses the same either way. *)
Theorem post_load_write_commute s addr value v1 v2 :
  fst (ac97_write (snd (ac97_post_load s v1)) addr value)
  = snd (ac97_post_load (fst (ac97_write s addr value)) v2) /\
  snd (ac97_write (snd (ac97_post_load s v1)) addr value)
  = snd (ac97_write s addr value).
Proof.
  cbn [ac97_post_load snd].
  assert (Hcomm : forall i v, Z.to_nat i <> Z.to_nat R_D_CTRL ->
            Z.to_nat i <> Z.to_nat R_U_CTRL ->
            set_reg (update_voices s) i v = update_voices (set_reg s i v)).
  { intros i v H1 H2. rewrite !update_voices_eq.
    rewrite !reg_set_reg_ne by congruence. reflexivity. }
  destruct (write_arm_of (Z.shiftr addr 2)) as [H | H | H | H].
  - rewrite !ac97_write_AC97_CTRL by assumption. cbn [fst snd].
    split; [|reflexivity]. apply Hcomm; reg_idx.
  - rewrite !ac97_write_channel by assumption. cbn [fst snd].
    split; [|reflexivity].
    rewrite !update_voices_eq. cbn [set_reg regs voice_in voice_out hw reg].
    reflexivity.
  - rewrite !ac97_write_plain by assumption. cbn [fst snd].
    split; [|reflexivity]. apply Hcomm; reg_idx.
  - rewrite !ac97_write_unknown by assumption. cbn [fst snd].
    split; reflexivity.
Qed.

Lemma milkymist_ac97_reset_eq s :
  length (regs s) = Z.to_nat R_MAX ->
  milkymist_ac97_reset s
  = {| voice_in := {| active := false; hw := hw (voice_in s) |};
       voice_out := {| active := false; hw := hw (voice_out s) |};
       regs := replicate (Z.to_nat R_MAX) 0 |}.
Proof.
  destruct s as [vi vo rs]. simpl. intros Hl.
  do 12 (destruct rs as [|? rs]; try discriminate Hl). reflexivity.
Qed.

Lemma voices_synced_update s : voices_synced s = true -> update_voices s = s.
Proof.
  unfold voices_synced. intros H. apply andb_true_iff in H as [Ho Hi].
  apply eqb_prop in Ho, Hi. rewrite update_voices_eq, <- Ho, <- Hi.
  destruct s as [[ai hi] [ao ho] rs]. reflexivity.
Qed.

(** X16. The post-load hook is idempotent, it changes nothing in a state
    whose voices already follow the enable bits, and run after a reset it
    leaves the reset state. *)
Theorem post_load_idempotent_and_neutral s v1 v2 :
  snd (ac97_post_load (snd (ac97_post_load s v1)) v2) = snd (ac97_post_load s v1) /\
  (voices_synced s = true -> snd (ac97_post_load s v1) = s) /\
  (length (regs s) = Z.to_nat R_MAX ->
   snd (ac97_post_load (milkymist_ac97_reset s) v1) = milkymist_ac97_reset s).
Proof.
  cbn [ac97_post_load snd]. split; [|split].
  - rewrite (update_voices_eq (update_voices s)), reg_update_voices,
      reg_update_voices. rewrite !update_voices_eq. reflexivity.
  - apply voices_synced_update.
  - intros Hl. rewrite milkymist_ac97_reset_eq by assumption.
    apply voices_synced_update. reflexivity.
Qed.

End RegisterFileMore.

(** * Further properties of the DMA callbacks *)

Section DMAMore.

Context {Stream : Type}.
Local Abbreviation State := (MilkymistAC97State Stream).
Variable AUD_read : Stream -> Z -> Z * Stream.
Variable AUD_write : Stream -> Z -> Z * Stream.
Implicit Types (s : State) (sw : Stream) (fuel : nat) (ch : channel).

Local Abbreviation cb := (capacity_cb AUD_read AUD_write).
Local Abbreviation AUD := (AUD_move AUD_read AUD_write).
Local Abbreviation loop := (dma_loop AUD_read AUD_write).

Lemma ac97_in_cb_loop_dma fuel : forall sw temp addr transferred,
  ac97_in_cb_loop AUD_read fuel sw temp addr transferred
  = loop Upload fuel sw temp addr transferred.
Proof.
  induction fuel as [|fuel IH]; intros sw temp addr transferred;
    cbn [ac97_in_cb_loop dma_loop]; [reflexivity|].
  destruct (c_true temp); [|reflexivity]. cbn [AUD_move].
  destruct (AUD_read sw _) as [n sw1]. cbn [chunk_events].
  destruct (c_true n); cbn [negb]; [|reflexivity].
  rewrite IH. reflexivity.
Qed.

Lemma ac97_out_cb_loop_dma fuel : forall sw temp addr transferred,
  ac97_out_cb_loop AUD_write fuel sw temp addr transferred
  = loop Download fuel sw temp addr transferred.
Proof.
  induction fuel as [|fuel IH]; intros sw temp addr transferred;
    cbn [ac97_out_cb_loop dma_loop]; [reflexivity|].
  destruct (c_true temp); [|reflexivity]. cbn [AUD_move].
  destruct (AUD_write sw _) as [n sw1]. cbn [chunk_events].
  destruct (c_true n); cbn [negb]; [|reflexivity].
  rewrite IH. reflexivity.
Qed.

(** Both callbacks, written once over the channel. *)
Lemma capacity_cb_unfold ch fuel s a :
  cb ch fuel s a
  = let temp := to_int (audio_MIN (reg s (REMAINING ch)) (wrap32 a)) in
    if temp =? 0 then Some (s, [])
    else
      match loop ch fuel (hw (voice ch s)) temp (reg s (ADDR ch)) 0 with
      | None => None
      | Some (sw, addr, transferred, evs) =>
          let s1 := set_reg (set_stream ch s sw) (ADDR ch) addr in
          let s2 := set_reg s1 (REMAINING ch)
                      (wrap32 (reg s1 (REMAINING ch) - transferred)) in
          if c_true (Z.land (reg s2 (CTRL ch)) CTRL_EN)
             && (reg s2 (REMAINING ch) =? 0)
          then Some (s2, evs ++ [qemu_irq_pulse (completion_irq ch)])
          else Some (s2, evs)
      end.
Proof.
  destruct ch; cbn [capacity_cb]; unfold ac97_out_cb, ac97_in_cb;
    rewrite ?ac97_out_cb_loop_dma, ?ac97_in_cb_loop_dma; reflexivity.
Qed.

(** The events of one iteration. *)
Lemma c_true_false_iff (z : Z) : c_true z = false <-> z = 0.
Proof.
  unfold c_true. rewrite negb_false_iff. apply Z.eqb_eq.
Qed.

Lemma chunk_events_bytes ch addr to_copy n :
  bytes_moved (chunk_events ch addr to_copy n) = n.
Proof.
  destruct ch; cbn [chunk_events bytes_moved]; [lia|].
  destruct (c_true n) eqn:E; cbn [bytes_moved]; [lia|].
  apply c_true_false_iff in E. lia.
Qed.

Lemma chunk_events_data ch addr to_copy n :
  forallb is_data_movement (chunk_events ch addr to_copy n) = true.
Proof. destruct ch; cbn [chunk_events]; [|destruct (c_true n)]; reflexivity. Qed.

Lemma chunk_events_direction ch addr to_copy n :
  forallb (direction_ok ch) (chunk_events ch addr to_copy n) = true.
Proof. destruct ch; cbn [chunk_events]; [|destruct (c_true n)]; reflexivity. Qed.

Lemma chunk_events_sizes ch addr to_copy n :
  1 <= to_copy <= sizeof_buf -> 0 <= n <= to_copy ->
  forallb chunk_ok (chunk_events ch addr to_copy n) = true.
Proof.
  intros Hc Hn.
  assert (H1 : (1 <=? to_copy) = true) by (apply Z.leb_le; lia).
  assert (H2 : (to_copy <=? sizeof_buf) = true) by (apply Z.leb_le; lia).
  assert (H3 : (0 <=? n) = true) by (apply Z.leb_le; lia).
  assert (H4 : (n <=? to_copy) = true) by (apply Z.leb_le; lia).
  destruct ch; cbn [chunk_events].
  - cbn [forallb chunk_ok]. now rewrite H1, H2, H3, H4.
  - destruct (c_true n) eqn:E; cbn [forallb chunk_ok];
      rewrite H1, H2, H3, H4; [|reflexivity].
    assert (Hnz : n <> 0) by (intros ->; discriminate E).
    assert (H5 : (1 <=? n) = true) by (apply Z.leb_le; lia).
    assert (H6 : (n <=? sizeof_buf) = true) by (apply Z.leb_le; lia).
    now rewrite H5, H6.
Qed.

Lemma chunk_events_cursor ch addr to_copy n rest :
  0 <= addr < 2 ^ 32 ->
  mem_cursor addr (chunk_events ch addr to_copy n ++ rest)
  = mem_cursor (wrap32 (addr + n)) rest.
Proof.
  intros Ha. destruct ch; cbn [chunk_events].
  - cbn [app mem_cursor]. now rewrite Z.eqb_refl.
  - destruct (c_true n) eqn:E; cbn [app mem_cursor].
    + now rewrite Z.eqb_refl.
    + apply c_true_false_iff in E. subst n.
      now rewrite Z.add_0_r, wrap32_small.
Qed.

Lemma wrap32_bounds (z : Z) : 0 <= wrap32 z < 2 ^ 32.
Proof. unfold wrap32. apply Z.mod_pos_bound. lia. Qed.

(** The backend's primitives are bounded, as in the section on the
    callbacks above. *)
Hypothesis AUD_read_bounded :
  forall sw size, 0 <= size -> 0 <= fst (AUD_read sw size) <= size.
Hypothesis AUD_write_bounded :
  forall sw size, 0 <= size -> 0 <= fst (AUD_write sw size) <= size.

Lemma AUD_move_bounded ch sw size :
  0 <= size -> 0 <= fst (AUD ch sw size) <= size.
Proof. destruct ch; cbn [AUD_move]; auto. Qed.

(** What a run of the transfer loop yields, in full. *)
Definition loop_facts ch (addr temp : Z) (evs : list event) : Prop :=
  0 <= bytes_moved evs <= temp /\
  forallb is_data_movement evs = true /\
  forallb (direction_ok ch) evs = true /\
  forallb chunk_ok evs = true /\
  (forall rest, mem_cursor addr (evs ++ rest)
                = mem_cursor (wrap32 (addr + bytes_moved evs)) rest) /\
  (bytes_moved evs = temp \/
   exists sw0 size, 0 < size <= sizeof_buf /\ fst (AUD ch sw0 size) = 0).

Lemma dma_loop_spec ch fuel : forall sw temp addr transferred,
  0 <= temp -> 0 <= transferred -> transferred + temp < 2 ^ 31 ->
  0 <= addr < 2 ^ 32 -> (Z.to_nat temp <= fuel)%nat ->
  exists sw' evs,
    loop ch fuel sw temp addr transferred
    = Some (sw', wrap32 (addr + bytes_moved evs),
            transferred + bytes_moved evs, evs) /\
    loop_facts ch addr temp evs.
Proof.
  induction fuel as [|fuel IH]; intros sw temp addr transferred Ht Htr Hsum Ha Hf.
  - assert (temp = 0) as -> by lia. exists sw, []. cbn.
    rewrite !Z.add_0_r, wrap32_small by lia.
    split; [reflexivity|]. unfold loop_facts. cbn.
    rewrite Z.add_0_r, wrap32_small by lia. repeat split; auto; lia.
  - destruct (Z.eq_dec temp 0) as [->|Hnz].
    { exists sw, []. cbn.
      rewrite !Z.add_0_r, wrap32_small by lia.
      split; [reflexivity|]. unfold loop_facts. cbn.
      rewrite Z.add_0_r, wrap32_small by lia. repeat split; auto; lia. }
    cbn [dma_loop].
    replace (c_true temp) with true
      by (symmetry; apply negb_true_iff, Z.eqb_neq; assumption).
    rewrite (to_copy_of_temp temp) by lia.
    set (size := Z.min temp sizeof_buf).
    assert (Hsize : 1 <= size <= sizeof_buf) by (unfold size, sizeof_buf; lia).
    pose proof (AUD_move_bounded ch sw size ltac:(lia)) as Hb.
    destruct (AUD ch sw size) as [n sw1] eqn:Ecall. cbn [fst] in Hb.
    assert (Hst : size <= temp) by (unfold size; lia).
    destruct (Z.eq_dec n 0) as [->|Hn].
    + replace (c_true 0) with false by reflexivity. cbn [negb].
      exists sw1, (chunk_events ch addr size 0).
      rewrite chunk_events_bytes, !Z.add_0_r, wrap32_small by lia.
      split; [reflexivity|]. unfold loop_facts.
      rewrite chunk_events_bytes. repeat split; try lia.
      * apply chunk_events_data.
      * apply chunk_events_direction.
      * apply chunk_events_sizes; lia.
      * intros rest. now apply chunk_events_cursor.
      * right. exists sw, size. rewrite Ecall. split; [lia|reflexivity].
    + replace (c_true n) with true
        by (symmetry; apply negb_true_iff, Z.eqb_neq; assumption).
      cbn [negb].
      rewrite (to_int_small (temp - n)), (to_int_small (transferred + n)) by lia.
      destruct (IH sw1 (temp - n) (wrap32 (addr + n)) (transferred + n))
        as (sw2 & evs & -> & Hm & Hdata & Hdir & Hchunk & Hcur & Hend);
        try lia; [apply wrap32_bounds|].
      exists sw2, (chunk_events ch addr size n ++ evs).
      rewrite bytes_moved_app, chunk_events_bytes, wrap32_add_l, !Z.add_assoc.
      split; [reflexivity|]. unfold loop_facts.
      rewrite bytes_moved_app, chunk_events_bytes, !forallb_app.
      rewrite chunk_events_data, chunk_events_direction, Hdata, Hdir, Hchunk.
      rewrite chunk_events_sizes by lia.
      repeat split; try lia.
      * intros rest. rewrite <- app_assoc, chunk_events_cursor by assumption.
        rewrite Hcur, wrap32_add_l, Z.add_assoc. reflexivity.
      * destruct Hend as [Hall | Hstall]; [left; lia | right; exact Hstall].
Qed.

Lemma reg_set_stream ch s sw j : reg (set_stream ch s sw) j = reg s j.
Proof. destruct ch; reflexivity. Qed.

Lemma regs_set_stream ch s sw : regs (set_stream ch s sw) = regs s.
Proof. destruct ch; reflexivity. Qed.

Lemma set_reg_same s j :
  regs_ok s = true -> 0 <= j < R_MAX -> set_reg s j (reg s j) = s.
Proof.
  intros Hok Hj. pose proof (regs_ok_length s Hok) as Hlen.
  unfold set_reg, reg.
  destruct (lookup_lt_is_Some_2 (regs s) (Z.to_nat j)) as [x Hx];
    [rewrite Hlen; reg_idx|].
  rewrite Hx. cbn [default]. rewrite list_insert_id by assumption.
  destruct s; reflexivity.
Qed.

Lemma after_transfer_idle ch s :
  regs_ok s = true -> after_transfer ch s (hw (voice ch s)) 0 = s.
Proof.
  intros Hok. unfold after_transfer.
  pose proof (regs_ok_range s (ADDR ch) Hok) as Ha.
  rewrite Z.add_0_r, Z.sub_0_r, wrap32_small by lia.
  assert (Hst : set_stream ch s (hw (voice ch s)) = s).
  { destruct ch; destruct s as [[ai hi] [ao ho] rs]; reflexivity. }
  rewrite Hst. rewrite (set_reg_same s (ADDR ch)) by (auto; destruct ch; reg_idx).
  apply set_reg_same; [assumption | destruct ch; reg_idx].
Qed.

(** One callback in full: the state and the events it leaves. *)
Lemma capacity_cb_full ch fuel s a :
  regs_ok s = true -> 0 <= a < 2 ^ 31 ->
  (Z.to_nat (Z.min (reg s (REMAINING ch)) a) <= fuel)%nat ->
  exists sw evl,
    cb ch fuel s a
    = Some (after_transfer ch s sw (bytes_moved evl),
            evl ++ completion_pulse ch s (Z.min (reg s (REMAINING ch)) a)
                     (bytes_moved evl)) /\
    loop_facts ch (reg s (ADDR ch)) (Z.min (reg s (REMAINING ch)) a) evl.
Proof.
  intros Hok Ha Hfuel.
  pose proof (regs_ok_range s (REMAINING ch) Hok) as Hrem.
  pose proof (regs_ok_range s (ADDR ch) Hok) as Haddr.
  pose proof (regs_ok_length s Hok) as Hlen.
  rewrite capacity_cb_unfold. cbv zeta. rewrite temp_of_count by lia.
  set (want := Z.min (reg s (REMAINING ch)) a) in *.
  destruct (dma_loop_spec ch fuel (hw (voice ch s)) want (reg s (ADDR ch)) 0)
    as (sw & evl & Hloop & Hfacts); try lia.
  exists (if want =? 0 then hw (voice ch s) else sw), evl.
  split; [|exact Hfacts].
  destruct (Z.eqb_spec want 0) as [Hz|Hnz].
  - assert (Hnil : evl = []).
    { rewrite Hz in Hloop. destruct fuel; cbn in Hloop; congruence. }
    subst evl. cbn [bytes_moved app].
    rewrite after_transfer_idle by assumption.
    unfold completion_pulse. rewrite Hz. reflexivity.
  - rewrite Hloop. rewrite Z.add_0_l.
    destruct Hfacts as (Hm & _).
    set (m := bytes_moved evl) in *.
    set (s1 := set_reg (set_stream ch s sw) (ADDR ch) (wrap32 (reg s (ADDR ch) + m))).
    assert (H1 : reg s1 (REMAINING ch) = reg s (REMAINING ch)).
    { subst s1. rewrite reg_set_reg_ne by (destruct ch; reg_idx).
      apply reg_set_stream. }
    rewrite H1, (wrap32_small (reg s (REMAINING ch) - m)) by lia.
    change (set_reg s1 (REMAINING ch) (reg s (REMAINING ch) - m))
      with (after_transfer ch s sw m).
    assert (H2 : reg (after_transfer ch s sw m) (REMAINING ch)
                 = reg s (REMAINING ch) - m).
    { unfold after_transfer. apply reg_set_reg_eq.
      cbn [set_reg regs]. rewrite length_insert, regs_set_stream, Hlen.
      destruct ch; reg_idx. }
    assert (H3 : reg (after_transfer ch s sw m) (CTRL ch) = reg s (CTRL ch)).
    { unfold after_transfer. rewrite !reg_set_reg_ne by (destruct ch; reg_idx).
      apply reg_set_stream. }
    rewrite H2, H3, c_true_CTRL_EN. unfold completion_pulse.
    replace (0 <? want) with true by (symmetry; apply Z.ltb_lt; lia).
    cbn [andb].
    destruct (Z.testbit (reg s (CTRL ch)) 0 && (reg s (REMAINING ch) - m =? 0));
      rewrite ?app_nil_r; reflexivity.
Qed.

Lemma after_transfer_facts ch s sw m :
  regs_ok s = true -> 0 <= m <= reg s (REMAINING ch) ->
  regs_ok (after_transfer ch s sw m) = true /\
  reg (after_transfer ch s sw m) (ADDR ch) = wrap32 (reg s (ADDR ch) + m) /\
  reg (after_transfer ch s sw m) (REMAINING ch) = reg s (REMAINING ch) - m /\
  (forall j, 0 <= j -> j <> ADDR ch -> j <> REMAINING ch ->
             reg (after_transfer ch s sw m) j = reg s j) /\
  active (voice_in (after_transfer ch s sw m)) = active (voice_in s) /\
  active (voice_out (after_transfer ch s sw m)) = active (voice_out s) /\
  (ch = Download -> voice_in (after_transfer ch s sw m) = voice_in s) /\
  (ch = Upload -> voice_out (after_transfer ch s sw m) = voice_out s).
Proof.
  intros Hok Hm.
  pose proof (regs_ok_range s (REMAINING ch) Hok) as Hrem.
  pose proof (regs_ok_length s Hok) as Hlen.
  assert (Hok0 : regs_ok (set_stream ch s sw) = true)
    by (destruct ch; exact Hok).
  unfold after_transfer. split; [|split; [|split; [|split]]].
  - apply regs_ok_set_reg; [apply regs_ok_set_reg|];
      [assumption | apply wrap32_range | apply is_uint32_intro; lia].
  - rewrite reg_set_reg_ne by (destruct ch; reg_idx).
    apply reg_set_reg_eq. rewrite regs_set_stream, Hlen. destruct ch; reg_idx.
  - apply reg_set_reg_eq. cbn [set_reg regs].
    rewrite length_insert, regs_set_stream, Hlen. destruct ch; reg_idx.
  - intros j Hj HA HR.
    rewrite !reg_set_reg_ne by (destruct ch; reg_idx).
    apply reg_set_stream.
  - destruct ch; repeat split; try reflexivity; discriminate.
Qed.

Lemma completion_pulse_cases ch s want m :
  completion_pulse ch s want m = [] \/
  completion_pulse ch s want m = [qemu_irq_pulse (completion_irq ch)].
Proof.
  unfold completion_pulse.
  destruct ((0 <? want) && Z.testbit (reg s (CTRL ch)) 0
            && (reg s (REMAINING ch) - m =? 0)); auto.
Qed.

Lemma bytes_moved_completion_pulse ch s want m :
  bytes_moved (completion_pulse ch s want m) = 0.
Proof. destruct (completion_pulse_cases ch s want m) as [-> | ->]; reflexivity. Qed.

(** X11. No request to the backend and no guest-memory access of a
    callback exceeds the callback's 4096-byte buffer: every size asked of
    the backend and every length copied lies between 1 and sizeof(buf),
    and what the backend returned lies between 0 and the size asked. *)
Theorem callback_chunks_fit_the_buffer ch fuel s a :
  regs_ok s = true -> 0 <= a < 2 ^ 31 ->
  (Z.to_nat (Z.min (reg s (REMAINING ch)) a) <= fuel)%nat ->
  exists s' evs,
    cb ch fuel s a = Some (s', evs) /\ forallb chunk_ok evs = true.
Proof.
  intros Hok Ha Hfuel.
  destruct (capacity_cb_full ch fuel s a Hok Ha Hfuel)
    as (sw & evl & Hcb & _ & _ & _ & Hchunk & _).
  eexists _, _. split; [exact Hcb|].
  rewrite forallb_app, Hchunk.
  destruct (completion_pulse_cases ch s (Z.min (reg s (REMAINING ch)) a)
              (bytes_moved evl)) as [-> | ->]; reflexivity.
Qed.

(** X12. A callback stays in its direction: the playback callback only
    reads guest memory and writes the output voice, the record callback
    only reads the input voice and writes guest memory, and neither pulses
    a line other than its own completion line. *)
Theorem callback_keeps_its_direction ch fuel s a :
  regs_ok s = true -> 0 <= a < 2 ^ 31 ->
  (Z.to_nat (Z.min (reg s (REMAINING ch)) a) <= fuel)%nat ->
  exists s' evs,
    cb ch fuel s a = Some (s', evs) /\ forallb (direction_ok ch) evs = true.
Proof.
  intros Hok Ha Hfuel.
  destruct (capacity_cb_full ch fuel s a Hok Ha Hfuel)
    as (sw & evl & Hcb & _ & _ & Hdir & _).
  eexists _, _. split; [exact Hcb|].
  rewrite forallb_app, Hdir.
  destruct (completion_pulse_cases ch s (Z.min (reg s (REMAINING ch)) a)
              (bytes_moved evl)) as [-> | ->]; destruct ch; reflexivity.
Qed.

(** X13. A callback walks guest memory from ADDR without gap or overlap:
    every guest-memory access starts where the bytes moved so far end, and
    the walk ends at the new value of ADDR. *)
Theorem callback_walks_memory_from_ADDR ch fuel s a :
  regs_ok s = true -> 0 <= a < 2 ^ 31 ->
  (Z.to_nat (Z.min (reg s (REMAINING ch)) a) <= fuel)%nat ->
  exists s' evs,
    cb ch fuel s a = Some (s', evs) /\
    mem_cursor (reg s (ADDR ch)) evs = true /\
    forall rest, mem_cursor (reg s (ADDR ch)) (evs ++ rest)
                 = mem_cursor (reg s' (ADDR ch)) rest.
Proof.
  intros Hok Ha Hfuel.
  destruct (capacity_cb_full ch fuel s a Hok Ha Hfuel)
    as (sw & evl & Hcb & Hm & _ & _ & _ & Hcur & _).
  pose proof (regs_ok_range s (REMAINING ch) Hok) as Hrem.
  destruct (after_transfer_facts ch s sw (bytes_moved evl) Hok ltac:(lia))
    as (_ & HA & _).
  eexists _, _. split; [exact Hcb|]. rewrite HA.
  assert (Hall : forall rest,
            mem_cursor (reg s (ADDR ch))
              ((evl ++ completion_pulse ch s (Z.min (reg s (REMAINING ch)) a)
                         (bytes_moved evl)) ++ rest)
            = mem_cursor (wrap32 (reg s (ADDR ch) + bytes_moved evl)) rest).
  { intros rest. rewrite <- app_assoc, Hcur.
    destruct (completion_pulse_cases ch s (Z.min (reg s (REMAINING ch)) a)
                (bytes_moved evl)) as [-> | ->]; reflexivity. }
  split; [|exact Hall].
  specialize (Hall []). rewrite app_nil_r in Hall. rewrite Hall. reflexivity.
Qed.

(** X14. A callback touches its own channel only: every register other
    than the channel's ADDR and REMAINING keeps its value, the activity of
    both voices is unchanged, and the other channel's voice handle is the
    one before. *)
Theorem callback_frame ch fuel s a :
  regs_ok s = true -> 0 <= a < 2 ^ 31 ->
  (Z.to_nat (Z.min (reg s (REMAINING ch)) a) <= fuel)%nat ->
  exists s' evs,
    cb ch fuel s a = Some (s', evs) /\
    (forall j, 0 <= j -> j <> ADDR ch -> j <> REMAINING ch ->
               reg s' j = reg s j) /\
    length (regs s') = length (regs s) /\
    active (voice_in s') = active (voice_in s) /\
    active (voice_out s') = active (voice_out s) /\
    (ch = Download -> voice_in s' = voice_in s) /\
    (ch = Upload -> voice_out s' = voice_out s).
Proof.
  intros Hok Ha Hfuel.
  destruct (capacity_cb_full ch fuel s a Hok Ha Hfuel)
    as (sw & evl & Hcb & Hm & _).
  pose proof (regs_ok_range s (REMAINING ch) Hok) as Hrem.
  destruct (after_transfer_facts ch s sw (bytes_moved evl) Hok ltac:(lia))
    as (Hok' & _ & _ & Hframe & Hai & Hao & Hvi & Hvo).
  eexists _, _. split; [exact Hcb|].
  repeat split; auto.
  now rewrite (regs_ok_length _ Hok'), (regs_ok_length _ Hok).
Qed.


Lemma pulses_completion_pulse ch s want m :
  pulses (completion_pulse ch s want m)
  = if (0 <? want) && Z.testbit (reg s (CTRL ch)) 0
       && (reg s (REMAINING ch) - m =? 0)
    then [completion_irq ch] else [].
Proof.
  unfold completion_pulse.
  destruct ((0 <? want) && Z.testbit (reg s (CTRL ch)) 0
            && (reg s (REMAINING ch) - m =? 0)); reflexivity.
Qed.

Lemma capacity_cb_depleted ch fuel s a :
  reg s (REMAINING ch) = 0 -> cb ch fuel s a = Some (s, []).
Proof.
  intros Hz. rewrite capacity_cb_unfold. cbv zeta.
  rewrite Hz, audio_MIN_min. pose proof (wrap32_bounds a).
  rewrite Z.min_l by lia. reflexivity.
Qed.

Lemma run_cbs_depleted ch fuel avails : forall s,
  reg s (REMAINING ch) = 0 -> run_cbs (cb ch fuel) s avails = Some (s, []).
Proof.
  induction avails as [|a avails IH]; intros s Hz; cbn [run_cbs];
    [reflexivity|].
  rewrite capacity_cb_depleted, IH by assumption. reflexivity.
Qed.

(** X7. One programmed transfer completes at most once: over any sequence
    of capacity callbacks with no register write in between, the
    completion line is pulsed at most once and no other line is pulsed;
    when it is pulsed the channel was enabled, had bytes left, and ends
    with REMAINING zero. *)
Theorem at_most_one_completion_per_transfer ch fuel : forall avails s,
  regs_ok s = true ->
  Forall (fun a => 0 <= a < 2 ^ 31) avails ->
  (Z.to_nat (reg s (REMAINING ch)) <= fuel)%nat ->
  exists s' evs,
    run_cbs (cb ch fuel) s avails = Some (s', evs) /\
    (pulses evs = [] \/
     pulses evs = [completion_irq ch] /\
     reg s' (REMAINING ch) = 0 /\
     Z.testbit (reg s (CTRL ch)) 0 = true /\
     0 < reg s (REMAINING ch)).
Proof.
  induction avails as [|a avails IH]; intros s Hok Hav Hfuel.
  - exists s, []. split; [reflexivity|]. now left.
  - apply Forall_cons in Hav as [Ha Hav].
    pose proof (regs_ok_range s (REMAINING ch) Hok) as Hrem.
    destruct (capacity_cb_full ch fuel s a Hok Ha ltac:(lia))
      as (sw & evl & Hcb & Hm & Hdata & _).
    destruct (after_transfer_facts ch s sw (bytes_moved evl) Hok ltac:(lia))
      as (Hok1 & _ & HR1 & Hframe & _).
    set (s1 := after_transfer ch s sw (bytes_moved evl)) in *.
    cbn [run_cbs]. rewrite Hcb.
    assert (Hp1 : pulses (evl ++ completion_pulse ch s
                            (Z.min (reg s (REMAINING ch)) a) (bytes_moved evl))
                  = pulses (completion_pulse ch s
                              (Z.min (reg s (REMAINING ch)) a) (bytes_moved evl))).
    { now rewrite pulses_app, (pulses_data_movement evl Hdata). }
    destruct (Z.eq_dec (reg s1 (REMAINING ch)) 0) as [Hz|Hnz].
    + rewrite (run_cbs_depleted ch fuel avails s1 Hz).
      eexists _, _. split; [reflexivity|].
      rewrite app_nil_r, Hp1, pulses_completion_pulse.
      destruct (Z.ltb_spec 0 (Z.min (reg s (REMAINING ch)) a));
        destruct (Z.testbit (reg s (CTRL ch)) 0);
        destruct (Z.eqb_spec (reg s (REMAINING ch) - bytes_moved evl) 0);
        cbn [andb]; auto.
      right. repeat split; auto; lia.
    + destruct (IH s1 Hok1 Hav ltac:(lia)) as (s2 & evs2 & Hrun & Hp2).
      rewrite Hrun. eexists _, _. split; [reflexivity|].
      assert (Hnone : pulses (completion_pulse ch s
                        (Z.min (reg s (REMAINING ch)) a) (bytes_moved evl)) = []).
      { rewrite pulses_completion_pulse.
        destruct (Z.eqb_spec (reg s (REMAINING ch) - bytes_moved evl) 0);
          [lia|]. now rewrite andb_false_r. }
      rewrite pulses_app, Hp1, Hnone. cbn [app].
      destruct Hp2 as [Hp2 | (Hp2 & Hz2 & Hen & Hpos)]; [now left|].
      right. rewrite Hframe in Hen by (destruct ch; reg_idx).
      repeat split; auto; lia.
Qed.

(** X8. A depleted channel stays quiet: with REMAINING zero, any sequence
    of capacity callbacks, whatever the byte counts offered, the fuel and
    the backend, returns the same state and produces no event. *)
Theorem depleted_channel_ignores_callbacks ch fuel s avails :
  reg s (REMAINING ch) = 0 ->
  run_cbs (cb ch fuel) s avails = Some (s, []).
Proof. apply run_cbs_depleted. Qed.

(** X9. A backend that takes or gives nothing on the first call ends the
    callback at once: the registers are as before, the voices keep their
    activity, no byte is moved and no completion is signalled, though
    REMAINING is not zero. *)
Theorem stalled_backend_changes_nothing ch fuel s a :
  regs_ok s = true -> 0 <= a < 2 ^ 31 ->
  0 < Z.min (reg s (REMAINING ch)) a ->
  (0 < fuel)%nat ->
  fst (AUD ch (hw (voice ch s))
         (Z.min (Z.min (reg s (REMAINING ch)) a) sizeof_buf)) = 0 ->
  exists s' evs,
    cb ch fuel s a = Some (s', evs) /\
    regs s' = regs s /\
    active (voice_in s') = active (voice_in s) /\
    active (voice_out s') = active (voice_out s) /\
    bytes_moved evs = 0 /\
    pulses evs = [].
Proof.
  intros Hok Ha Hpos Hfuel Hstall.
  pose proof (regs_ok_range s (REMAINING ch) Hok) as Hrem.
  rewrite capacity_cb_unfold. cbv zeta. rewrite temp_of_count by lia.
  set (want := Z.min (reg s (REMAINING ch)) a) in *.
  replace (want =? 0) with false by (symmetry; apply Z.eqb_neq; lia).
  destruct fuel as [|fuel]; [lia|]. cbn [dma_loop].
  replace (c_true want) with true
    by (symmetry; apply negb_true_iff, Z.eqb_neq; lia).
  rewrite (to_copy_of_temp want) by lia.
  destruct (AUD ch (hw (voice ch s)) (Z.min want sizeof_buf)) as [n sw1].
  cbn [fst] in Hstall. subst n. replace (c_true 0) with false by reflexivity.
  cbn [negb].
  set (t := set_stream ch s sw1).
  assert (Hokt : regs_ok t = true) by (destruct ch; exact Hok).
  assert (Hregt : forall j, reg t j = reg s j) by (apply reg_set_stream).
  rewrite <- (Hregt (ADDR ch)).
  rewrite (set_reg_same t (ADDR ch)) by (auto; destruct ch; reg_idx).
  rewrite Z.sub_0_r, wrap32_small by (rewrite Hregt; lia).
  rewrite (set_reg_same t (REMAINING ch)) by (auto; destruct ch; reg_idx).
  replace (reg t (REMAINING ch) =? 0) with false
    by (symmetry; apply Z.eqb_neq; rewrite Hregt; lia).
  rewrite andb_false_r. eexists _, _. split; [reflexivity|].
  rewrite chunk_events_bytes, (pulses_data_movement _ (chunk_events_data _ _ _ _)).
  subst t. destruct ch; repeat split; reflexivity.
Qed.

(** X17. After reset the device is quiet: every register reads 0 at any
    address, and every sequence of capacity callbacks on either channel
    leaves the reset state and produces no event. *)
Theorem reset_state_is_quiet s addr ch fuel avails :
  length (regs s) = Z.to_nat R_MAX ->
  fst (fst (ac97_read (milkymist_ac97_reset s) addr)) = 0 /\
  run_cbs (cb ch fuel) (milkymist_ac97_reset s) avails
  = Some (milkymist_ac97_reset s, []).
Proof.
  intros Hlen.
  assert (Hzero : forall j, reg (milkymist_ac97_reset s) j = 0).
  { intros j. rewrite milkymist_ac97_reset_eq by assumption. unfold reg.
    cbn [regs]. destruct (replicate _ _ !! _) as [x|] eqn:E; [|reflexivity].
    apply lookup_replicate in E as [-> _]. reflexivity. }
  split; [|apply run_cbs_depleted, Hzero].
  unfold ac97_read. destruct (switch_case _ _); cbn [fst]; [apply Hzero|reflexivity].
Qed.

Lemma total_avail_nonneg (avails : list Z) :
  Forall (fun a => 0 <= a < 2 ^ 31) avails -> 0 <= total_avail avails.
Proof.
  induction 1 as [|a avails Ha _ IH]; cbn [total_avail foldr]; [lia|].
  fold (total_avail avails). lia.
Qed.

Lemma clear_RQEN_double (v : Z) :
  Z.land v (Z.lnot AC97_CTRL_RQEN) = 2 * (v / 2).
Proof.
  apply Z.bits_inj'. intros n Hn. rewrite clear_RQEN_bits.
  destruct (Z.eq_dec n 0) as [->|Hnz].
  - rewrite Z.eqb_refl, andb_false_r. symmetry. apply Z.testbit_even_0.
  - replace (n =? 0) with false by (symmetry; now apply Z.eqb_neq).
    rewrite andb_true_r. replace n with (Z.succ (n - 1)) at 2 by lia.
    rewrite Z.testbit_even_succ by lia.
    rewrite Z.div2_bits by lia. f_equal. lia.
Qed.

Lemma clear_RQEN_uint32 (v : Z) :
  is_uint32 v = true -> is_uint32 (Z.land v (Z.lnot AC97_CTRL_RQEN)) = true.
Proof.
  unfold is_uint32. intros H. apply andb_true_iff in H as [H1 H2].
  apply Z.leb_le in H1. apply Z.ltb_lt in H2.
  rewrite clear_RQEN_double. apply andb_true_iff.
  split; [apply Z.leb_le | apply Z.ltb_lt];
    Z.to_euclidean_division_equations; lia.
Qed.

Lemma voices_synced_intro s :
  active (voice_out s) = Z.testbit (reg s R_D_CTRL) 0 ->
  active (voice_in s) = Z.testbit (reg s R_U_CTRL) 0 ->
  voices_synced s = true.
Proof.
  intros Ho Hi. unfold voices_synced. rewrite Ho, Hi, !eqb_reflx. reflexivity.
Qed.

Lemma voices_synced_elim s :
  voices_synced s = true ->
  active (voice_out s) = Z.testbit (reg s R_D_CTRL) 0 /\
  active (voice_in s) = Z.testbit (reg s R_U_CTRL) 0.
Proof.
  unfold voices_synced. intros H. apply andb_true_iff in H as [Ho Hi].
  split; now apply eqb_prop.
Qed.

Lemma voices_synced_update_voices s : voices_synced (update_voices s) = true.
Proof.
  apply voices_synced_intro; rewrite reg_update_voices, update_voices_eq;
    reflexivity.
Qed.

Lemma regs_ok_update_voices s :
  regs_ok s = true -> regs_ok (update_voices s) = true.
Proof. unfold regs_ok. now rewrite update_voices_regs. Qed.

(** One well-formed operation: it returns, the register array stays
    well-formed, and voices that followed the enable bits still do. *)
Lemma step_invariant fuel s o :
  regs_ok s = true -> op_ok fuel o = true ->
  exists s' evs,
    step AUD_read AUD_write fuel s o = Some (s', evs) /\
    regs_ok s' = true /\
    (voices_synced s = true -> voices_synced s' = true).
Proof.
  intros Hok Hop. destruct o as [addr | addr value | ch a | | v]; cbn [step].
  - exists s, (snd (ac97_read s addr)).
    unfold ac97_read. destruct (switch_case _ _); cbn [snd]; auto.
  - cbn [op_ok] in Hop.
    exists (fst (ac97_write s addr value)), (snd (ac97_write s addr value)).
    split; [now destruct (ac97_write s addr value)|].
    destruct (write_arm_of (Z.shiftr addr 2)) as [H | H | H | H].
    + rewrite ac97_write_AC97_CTRL by assumption. cbn [fst].
      split; [auto using regs_ok_set_reg, clear_RQEN_uint32|].
      intros Hs. apply voices_synced_elim in Hs as [Ho Hi].
      apply voices_synced_intro; rewrite reg_set_reg_ne by reg_idx; assumption.
    + rewrite ac97_write_channel by assumption. cbn [fst].
      split; [auto using regs_ok_update_voices, regs_ok_set_reg|].
      intros _. apply voices_synced_update_voices.
    + rewrite ac97_write_plain by assumption. cbn [fst].
      split; [auto using regs_ok_set_reg|].
      intros Hs. apply voices_synced_elim in Hs as [Ho Hi].
      apply voices_synced_intro; rewrite reg_set_reg_ne by reg_idx; assumption.
    + rewrite ac97_write_unknown by assumption. cbn [fst]. auto.
  - cbn [op_ok] in Hop. apply andb_true_iff in Hop as [Hop Hf].
    apply andb_true_iff in Hop as [H0 H1].
    apply Z.leb_le in H0. apply Z.ltb_lt in H1. apply Nat.leb_le in Hf.
    pose proof (regs_ok_range s (REMAINING ch) Hok) as Hrem.
    destruct (capacity_cb_full ch fuel s a Hok ltac:(lia) ltac:(lia))
      as (sw & evl & Hcb & Hm & _).
    destruct (after_transfer_facts ch s sw (bytes_moved evl) Hok ltac:(lia))
      as (Hok' & _ & _ & Hframe & Hai & Hao & _).
    eexists _, _. split; [exact Hcb|]. split; [exact Hok'|].
    intros Hs. apply voices_synced_elim in Hs as [Ho Hi].
    apply voices_synced_intro;
      rewrite Hframe by (destruct ch; reg_idx); congruence.
  - pose proof (regs_ok_length s Hok) as Hlen.
    eexists _, _. split; [reflexivity|].
    rewrite milkymist_ac97_reset_eq by assumption. split; reflexivity.
  - eexists _, _. split; [reflexivity|]. cbn [ac97_post_load snd].
    split; [now apply regs_ok_update_voices|].
    intros _. apply voices_synced_update_voices.
Qed.

Lemma run_invariant fuel : forall ops s,
  regs_ok s = true -> forallb (op_ok fuel) ops = true ->
  exists s' evs,
    run AUD_read AUD_write fuel s ops = Some (s', evs) /\
    regs_ok s' = true /\
    (voices_synced s = true -> voices_synced s' = true).
Proof.
  induction ops as [|o ops IH]; intros s Hok Hops.
  - exists s, []. auto.
  - cbn [forallb] in Hops. apply andb_true_iff in Hops as [Ho Hops].
    destruct (step_invariant fuel s o Hok Ho) as (s1 & evs1 & Hstep & Hok1 & Hs1).
    destruct (IH s1 Hok1 Hops) as (s2 & evs2 & Hrun & Hok2 & Hs2).
    exists s2, (evs1 ++ evs2). cbn [run]. rewrite Hstep, Hrun. auto.
Qed.

(** X5. Every sequence of reads, writes of 32-bit values, capacity
    callbacks, resets and post-loads runs to its end and leaves the
    register array with its R_MAX words of 32 bits. *)
Theorem operations_keep_the_register_array fuel s ops :
  regs_ok s = true -> forallb (op_ok fuel) ops = true ->
  exists s' evs,
    run AUD_read AUD_write fuel s ops = Some (s', evs) /\ regs_ok s' = true.
Proof.
  intros Hok Hops.
  destruct (run_invariant fuel ops s Hok Hops) as (s' & evs & Hrun & Hok' & _).
  eauto.
Qed.

(** X6. The voices follow the enable bits through every run: from a state
    in which the playback voice is active exactly when bit 0 of D_CTRL is
    set and the record voice exactly when bit 0 of U_CTRL is set, every
    sequence of operations ends in such a state. *)
Theorem voices_follow_the_enable_bits fuel s ops :
  regs_ok s = true -> voices_synced s = true ->
  forallb (op_ok fuel) ops = true ->
  exists s' evs,
    run AUD_read AUD_write fuel s ops = Some (s', evs) /\
    active (voice_out s') = Z.testbit (reg s' R_D_CTRL) 0 /\
    active (voice_in s') = Z.testbit (reg s' R_U_CTRL) 0.
Proof.
  intros Hok Hs Hops.
  destruct (run_invariant fuel ops s Hok Hops) as (s' & evs & Hrun & _ & Hs').
  exists s', evs. split; [exact Hrun|]. apply voices_synced_elim. auto.
Qed.

(** A backend that moves every request in full. *)
Hypothesis AUD_read_greedy :
  forall sw size, 0 < size -> fst (AUD_read sw size) = size.
Hypothesis AUD_write_greedy :
  forall sw size, 0 < size -> fst (AUD_write sw size) = size.

Lemma AUD_move_greedy ch sw size : 0 < size -> fst (AUD ch sw size) = size.
Proof. destruct ch; cbn [AUD_move]; auto. Qed.

(** X10. With a backend that moves every request in full, a sequence of
    callbacks offering a_1, ..., a_n bytes moves min (REMAINING, a_1 + ...
    + a_n) bytes in all, advances ADDR and shrinks REMAINING by that much,
    and pulses the completion line exactly once if the channel is enabled,
    had bytes left and was offered at least as many, and not at all
    otherwise. *)
Theorem greedy_backend_completes_once ch fuel : forall avails s,
  regs_ok s = true ->
  Forall (fun a => 0 <= a < 2 ^ 31) avails ->
  (Z.to_nat (reg s (REMAINING ch)) <= fuel)%nat ->
  exists s' evs,
    run_cbs (cb ch fuel) s avails = Some (s', evs) /\
    bytes_moved evs = Z.min (reg s (REMAINING ch)) (total_avail avails) /\
    reg s' (REMAINING ch) = reg s (REMAINING ch) - bytes_moved evs /\
    reg s' (ADDR ch) = wrap32 (reg s (ADDR ch) + bytes_moved evs) /\
    pulses evs
    = if Z.testbit (reg s (CTRL ch)) 0 && (0 <? reg s (REMAINING ch))
         && (reg s (REMAINING ch) <=? total_avail avails)
      then [completion_irq ch] else [].
Proof.
  induction avails as [|a avails IH]; intros s Hok Hav Hfuel;
    pose proof (regs_ok_range s (REMAINING ch) Hok) as Hrem;
    pose proof (regs_ok_range s (ADDR ch) Hok) as Haddr.
  - exists s, []. cbn [run_cbs bytes_moved total_avail foldr pulses].
    rewrite Z.min_r, Z.sub_0_r, Z.add_0_r, wrap32_small by lia.
    repeat split; auto.
    destruct (Z.testbit (reg s (CTRL ch)) 0);
      destruct (Z.ltb_spec 0 (reg s (REMAINING ch)));
      destruct (Z.leb_spec (reg s (REMAINING ch)) 0);
      cbn [andb]; auto; lia.
  - apply Forall_cons in Hav as [Ha Hav].
    pose proof (total_avail_nonneg avails Hav) as Htot.
    destruct (capacity_cb_full ch fuel s a Hok Ha ltac:(lia))
      as (sw & evl & Hcb & Hm & Hdata & _ & _ & _ & Hend).
    assert (Hall : bytes_moved evl = Z.min (reg s (REMAINING ch)) a).
    { destruct Hend as [Hall | (sw0 & size & Hsize & Hzero)]; [exact Hall|].
      rewrite AUD_move_greedy in Hzero by lia. lia. }
    destruct (after_transfer_facts ch s sw (bytes_moved evl) Hok ltac:(lia))
      as (Hok1 & HA1 & HR1 & Hframe & _).
    set (s1 := after_transfer ch s sw (bytes_moved evl)) in *.
    destruct (IH s1 Hok1 Hav ltac:(lia))
      as (s2 & evs2 & Hrun & Hbm2 & HR2 & HA2 & Hp2).
    cbn [run_cbs]. rewrite Hcb, Hrun. eexists _, _. split; [reflexivity|].
    rewrite !bytes_moved_app, bytes_moved_completion_pulse, Z.add_0_r.
    rewrite !pulses_app, (pulses_data_movement evl Hdata), pulses_completion_pulse.
    rewrite Hp2, HR2, HA2, Hbm2, HA1, HR1, wrap32_add_l, Hall.
    rewrite (Hframe (CTRL ch)) by (destruct ch; reg_idx).
    cbn [total_avail foldr app]. fold (total_avail avails).
    split; [lia|]. split; [lia|]. split; [f_equal; lia|].
    destruct (Z.testbit (reg s (CTRL ch)) 0);
      destruct (Z.ltb_spec 0 (Z.min (reg s (REMAINING ch)) a));
      destruct (Z.eqb_spec (reg s (REMAINING ch)
                            - Z.min (reg s (REMAINING ch)) a) 0);
      destruct (Z.ltb_spec 0 (reg s (REMAINING ch)
                              - Z.min (reg s (REMAINING ch)) a));
      destruct (Z.leb_spec (reg s (REMAINING ch)
                            - Z.min (reg s (REMAINING ch)) a)
                  (total_avail avails));
      destruct (Z.ltb_spec 0 (reg s (REMAINING ch)));
      destruct (Z.leb_spec (reg s (REMAINING ch)) (a + total_avail avails));
      cbn [andb app]; try reflexivity; exfalso; lia.
Qed.

End DMAMore.

(** * The request-enable bit is never stored *)

Section CommandBit.

Context {Stream : Type}.
Local Abbreviation State := (MilkymistAC97State Stream).
Variable AUD_read : Stream -> Z -> Z * Stream.
Variable AUD_write : Stream -> Z -> Z * Stream.
Hypothesis AUD_read_bounded :
  forall sw size, 0 <= size -> 0 <= fst (AUD_read sw size) <= size.
Hypothesis AUD_write_bounded :
  forall sw size, 0 <= size -> 0 <= fst (AUD_write sw size) <= size.
Implicit Types (s : State) (fuel : nat) (ch : channel).

(** A callback that returns has left AC97_CTRL alone. *)
Lemma capacity_cb_keeps_AC97_CTRL ch fuel s a s' evs :
  capacity_cb AUD_read AUD_write ch fuel s a = Some (s', evs) ->
  reg s' R_AC97_CTRL = reg s R_AC97_CTRL.
Proof.
  rewrite capacity_cb_unfold. cbv zeta.
  destruct (_ =? 0); [intros H; inversion H; subst; reflexivity|].
  destruct (dma_loop _ _ _ _ _ _ _ _) as [[[[sw addr] tr] evl]|];
    [|discriminate].
  destruct (_ && _); intros H; inversion H; subst;
    rewrite !reg_set_reg_ne by (destruct ch; reg_idx); apply reg_set_stream.
Qed.

Lemma step_keeps_rqen_clear fuel s o s' evs :
  step AUD_read AUD_write fuel s o = Some (s', evs) ->
  Z.testbit (reg s R_AC97_CTRL) 0 = false ->
  Z.testbit (reg s' R_AC97_CTRL) 0 = false.
Proof.
  destruct o as [addr | addr value | ch a | | v]; cbn [step].
  - unfold ac97_read. destruct (switch_case _ _); intros H; inversion H; subst; auto.
  - intros H0 Hbit.
    assert (Hs' : s' = fst (ac97_write s addr value))
      by (inversion H0 as [H1]; now rewrite H1).
    subst s'. clear H0.
    destruct (write_arm_of (Z.shiftr addr 2)) as [H | H | H | H].
    + rewrite ac97_write_AC97_CTRL by assumption. cbn [fst].
      unfold reg, set_reg. cbn [regs].
      destruct (decide (Z.to_nat R_AC97_CTRL < length (regs s))%nat) as [Hl|Hl].
      * rewrite list_lookup_insert_eq by assumption. cbn [default id].
        rewrite clear_RQEN_bits. apply andb_false_r.
      * rewrite list_insert_ge by lia. exact Hbit.
    + rewrite ac97_write_channel by assumption. cbn [fst].
      rewrite reg_update_voices, reg_set_reg_ne by (destruct H; reg_idx).
      exact Hbit.
    + rewrite ac97_write_plain by assumption. cbn [fst].
      rewrite reg_set_reg_ne by reg_idx. exact Hbit.
    + rewrite ac97_write_unknown by assumption. exact Hbit.
  - intros Hcb Hbit. now rewrite (capacity_cb_keeps_AC97_CTRL _ _ _ _ _ _ Hcb).
  - intros H0 _. inversion H0; subst. clear H0. unfold reg.
    destruct (regs (milkymist_ac97_reset s) !! Z.to_nat R_AC97_CTRL) as [x|] eqn:E;
      [|reflexivity].
    cbn [default].
    assert (Hx : x = 0); [|now subst x].
    revert E. unfold milkymist_ac97_reset. cbn [set_voice_out set_voice_in regs].
    change (Z.to_nat R_AC97_CTRL) with 0%nat.
    change (seq 0 (Z.to_nat R_MAX)) with (0%nat :: seq 1 10). cbn [foldl].
    assert (Hkeep : forall (l : list nat) (t : State),
              (forall k, k ∈ l -> k <> 0%nat) ->
              regs (foldl (fun t i => set_reg t (Z.of_nat i) 0) t l) !! 0%nat
              = regs t !! 0%nat).
    { induction l as [|k l IH]; intros t Hl; cbn [foldl]; [reflexivity|].
      rewrite IH by (intros k' Hk'; apply Hl; now right).
      cbn [set_reg regs]. apply list_lookup_insert_ne.
      pose proof (Hl k ltac:(left)). lia. }
    rewrite Hkeep.
    + cbn [set_reg regs]. change (Z.to_nat (Z.of_nat 0)) with 0%nat.
      destruct (regs s) as [|r rs]; cbn; congruence.
    + intros k Hk. apply elem_of_seq in Hk. lia.
  - intros H0 Hbit. inversion H0; subst. clear H0. cbn [ac97_post_load snd].
    now rewrite reg_update_voices.
Qed.

(** X18. The request-enable bit is never held by the register: if bit 0
    of AC97_CTRL is clear, as it is after reset, it is clear after every
    sequence of operations, whatever values the guest writes. *)
Theorem rqen_is_never_stored fuel : forall ops s,
  regs_ok s = true ->
  Z.testbit (reg s R_AC97_CTRL) 0 = false ->
  forallb (op_ok fuel) ops = true ->
  exists s' evs,
    run AUD_read AUD_write fuel s ops = Some (s', evs) /\
    Z.testbit (reg s' R_AC97_CTRL) 0 = false.
Proof.
  induction ops as [|o ops IH]; intros s Hok Hbit Hops.
  - exists s, []. auto.
  - cbn [forallb] in Hops. apply andb_true_iff in Hops as [Ho Hops].
    destruct (step_invariant AUD_read AUD_write AUD_read_bounded
                AUD_write_bounded fuel s o Hok Ho)
      as (s1 & evs1 & Hstep & Hok1 & _).
    pose proof (step_keeps_rqen_clear fuel s o s1 evs1 Hstep Hbit) as Hbit1.
    destruct (IH s1 Hok1 Hbit1 Hops) as (s2 & evs2 & Hrun & Hbit2).
    exists s2, (evs1 ++ evs2). cbn [run]. rewrite Hstep, Hrun. auto.
Qed.

End CommandBit.

(** * The further properties at concrete inputs *)

Lemma full_backend_greedy (sw : unit) (size : Z) :
  0 < size -> fst (full_backend sw size) = size.
Proof. intros _. reflexivity. Qed.

Lemma register_write_read_round_trip_witness :
  regs_ok reset_state = true /\
  Z.shiftr 0x17 2 = Z.shiftr 0x14 2 /\
  0 < Z.shiftr 0x14 2 < R_MAX /\
  Z.shiftr 0x14 2 <> R_RESERVED /\
  fst (fst (ac97_read (fst (ac97_write reset_state 0x14 0x1000)) 0x17)) = 0x1000.
Proof.
  assert (H1 : regs_ok reset_state = true) by reflexivity.
  assert (H2 : Z.shiftr 0x17 2 = Z.shiftr 0x14 2) by reflexivity.
  assert (H3 : 0 < Z.shiftr 0x14 2 < R_MAX) by (vm_compute; split; reflexivity).
  assert (H4 : Z.shiftr 0x14 2 <> R_RESERVED) by (vm_compute; discriminate).
  split; [exact H1|]. split; [exact H2|]. split; [exact H3|]. split; [exact H4|].
  exact (f_equal (fun r => fst (fst r))
           (proj1 (register_write_read_round_trip reset_state 0x14 0x17 0x1000
                     H1 H2 H3 H4))).
Defined.

Lemma register_write_frame_witness :
  0 <= 6 /\ 6 <> Z.shiftr 0x14 2 /\
  reg (fst (ac97_write playback_programmed 0x14 0x5000)) 6 = 8192.
Proof.
  assert (H1 : 0 <= 6) by lia.
  assert (H2 : 6 <> Z.shiftr 0x14 2) by (vm_compute; discriminate).
  split; [exact H1|]. split; [exact H2|].
  exact (proj1 (register_write_frame playback_programmed 0x14 0x5000 6 H1 H2)).
Defined.

Lemma misaligned_access_hits_the_word_witness :
  0 <= 3 < 4 /\
  ac97_read playback_programmed (4 * 5 + 3) = ac97_read playback_programmed (4 * 5).
Proof.
  assert (H : 0 <= 3 < 4) by lia.
  split; [exact H|].
  exact (proj1 (misaligned_access_hits_the_word playback_programmed 5 3 0 H)).
Defined.

Lemma operations_keep_the_register_array_witness :
  regs_ok record_idle = true /\
  forallb (op_ok 8) sample_ops = true /\
  exists s' evs,
    run supply_backend supply_backend 8 record_idle sample_ops = Some (s', evs) /\
    regs_ok s' = true.
Proof.
  assert (H1 : regs_ok record_idle = true) by reflexivity.
  assert (H2 : forallb (op_ok 8) sample_ops = true) by reflexivity.
  split; [exact H1|]. split; [exact H2|].
  exact (operations_keep_the_register_array supply_backend supply_backend
           supply_backend_bounded supply_backend_bounded 8%nat record_idle
           sample_ops H1 H2).
Defined.

Lemma voices_follow_the_enable_bits_witness :
  regs_ok record_idle = true /\
  voices_synced record_idle = true /\
  forallb (op_ok 8) sample_ops = true /\
  exists s' evs,
    run supply_backend supply_backend 8 record_idle sample_ops = Some (s', evs) /\
    active (voice_out s') = Z.testbit (reg s' R_D_CTRL) 0 /\
    active (voice_in s') = Z.testbit (reg s' R_U_CTRL) 0.
Proof.
  assert (H1 : regs_ok record_idle = true) by reflexivity.
  assert (H2 : voices_synced record_idle = true) by reflexivity.
  assert (H3 : forallb (op_ok 8) sample_ops = true) by reflexivity.
  split; [exact H1|]. split; [exact H2|]. split; [exact H3|].
  exact (voices_follow_the_enable_bits supply_backend supply_backend
           supply_backend_bounded supply_backend_bounded 8%nat record_idle
           sample_ops H1 H2 H3).
Defined.

Lemma at_most_one_completion_per_transfer_witness :
  regs_ok playback_small = true /\
  Forall (fun a => 0 <= a < 2 ^ 31) [5; 5; 5] /\
  (Z.to_nat (reg playback_small (REMAINING Download)) <= 8)%nat /\
  exists s' evs,
    run_cbs (capacity_cb full_backend full_backend Download 8) playback_small
      [5; 5; 5] = Some (s', evs) /\
    (pulses evs = [] \/
     pulses evs = [dmar_irq] /\ reg s' R_D_REMAINING = 0 /\
     Z.testbit (reg playback_small R_D_CTRL) 0 = true /\
     0 < reg playback_small R_D_REMAINING).
Proof.
  assert (H1 : regs_ok playback_small = true) by reflexivity.
  assert (H2 : Forall (fun a => 0 <= a < 2 ^ 31) [5; 5; 5])
    by (repeat constructor; lia).
  assert (H3 : (Z.to_nat (reg playback_small (REMAINING Download)) <= 8)%nat)
    by (vm_compute; lia).
  split; [exact H1|]. split; [exact H2|]. split; [exact H3|].
  exact (at_most_one_completion_per_transfer full_backend full_backend
           full_backend_bounded full_backend_bounded Download 8%nat [5; 5; 5]
           playback_small H1 H2 H3).
Defined.

Lemma depleted_channel_ignores_callbacks_witness :
  reg reset_state (REMAINING Download) = 0 /\
  run_cbs (capacity_cb full_backend full_backend Download 0) reset_state [4; 5]
  = Some (reset_state, []).
Proof.
  assert (H : reg reset_state (REMAINING Download) = 0) by reflexivity.
  split; [exact H|].
  exact (depleted_channel_ignores_callbacks full_backend full_backend Download
           0%nat reset_state [4; 5] H).
Defined.

Lemma stalled_backend_changes_nothing_witness :
  regs_ok record_dry = true /\
  0 <= 100 < 2 ^ 31 /\
  0 < Z.min (reg record_dry (REMAINING Upload)) 100 /\
  (0 < 1)%nat /\
  fst (AUD_move supply_backend supply_backend Upload (hw (voice Upload record_dry))
         (Z.min (Z.min (reg record_dry (REMAINING Upload)) 100) sizeof_buf)) = 0 /\
  exists s' evs,
    capacity_cb supply_backend supply_backend Upload 1 record_dry 100
    = Some (s', evs) /\
    regs s' = regs record_dry /\ pulses evs = [].
Proof.
  assert (H1 : regs_ok record_dry = true) by reflexivity.
  assert (H2 : 0 <= 100 < 2 ^ 31) by lia.
  assert (H3 : 0 < Z.min (reg record_dry (REMAINING Upload)) 100)
    by (vm_compute; reflexivity).
  assert (H4 : (0 < 1)%nat) by lia.
  assert (H5 : fst (AUD_move supply_backend supply_backend Upload
                      (hw (voice Upload record_dry))
                      (Z.min (Z.min (reg record_dry (REMAINING Upload)) 100)
                         sizeof_buf)) = 0) by reflexivity.
  split; [exact H1|]. split; [exact H2|]. split; [exact H3|].
  split; [exact H4|]. split; [exact H5|].
  destruct (stalled_backend_changes_nothing supply_backend supply_backend
              Upload 1%nat record_dry 100 H1 H2 H3 H4 H5)
    as (s' & evs & Hcb & Hregs & _ & _ & _ & Hp).
  exists s', evs. split; [exact Hcb|]. split; [exact Hregs | exact Hp].
Defined.

Lemma greedy_backend_completes_once_witness :
  regs_ok playback_small = true /\
  Forall (fun a => 0 <= a < 2 ^ 31) [3; 5; 2] /\
  (Z.to_nat (reg playback_small (REMAINING Download)) <= 8)%nat /\
  exists s' evs,
    run_cbs (capacity_cb full_backend full_backend Download 8) playback_small
      [3; 5; 2] = Some (s', evs) /\
    bytes_moved evs = 8 /\ pulses evs = [dmar_irq].
Proof.
  assert (H1 : regs_ok playback_small = true) by reflexivity.
  assert (H2 : Forall (fun a => 0 <= a < 2 ^ 31) [3; 5; 2])
    by (repeat constructor; lia).
  assert (H3 : (Z.to_nat (reg playback_small (REMAINING Download)) <= 8)%nat)
    by (vm_compute; lia).
  split; [exact H1|]. split; [exact H2|]. split; [exact H3|].
  destruct (greedy_backend_completes_once full_backend full_backend
              full_backend_bounded full_backend_bounded
              full_backend_greedy full_backend_greedy Download 8%nat [3; 5; 2]
              playback_small H1 H2 H3)
    as (s' & evs & Hrun & Hbm & _ & _ & Hp).
  exists s', evs. split; [exact Hrun|]. split; [exact Hbm | exact Hp].
Defined.

Lemma callback_chunks_fit_the_buffer_witness :
  regs_ok record_idle = true /\
  0 <= 100 < 2 ^ 31 /\
  (Z.to_nat (Z.min (reg record_idle (REMAINING Upload)) 100) <= 8)%nat /\
  exists s' evs,
    capacity_cb supply_backend supply_backend Upload 8 record_idle 100
    = Some (s', evs) /\ forallb chunk_ok evs = true.
Proof.
  assert (H1 : regs_ok record_idle = true) by reflexivity.
  assert (H2 : 0 <= 100 < 2 ^ 31) by lia.
  assert (H3 : (Z.to_nat (Z.min (reg record_idle (REMAINING Upload)) 100) <= 8)%nat)
    by (vm_compute; lia).
  split; [exact H1|]. split; [exact H2|]. split; [exact H3|].
  exact (callback_chunks_fit_the_buffer supply_backend supply_backend
           supply_backend_bounded supply_backend_bounded Upload 8%nat
           record_idle 100 H1 H2 H3).
Defined.

Lemma callback_keeps_its_direction_witness :
  regs_ok playback_small = true /\
  0 <= 100 < 2 ^ 31 /\
  (Z.to_nat (Z.min (reg playback_small (REMAINING Download)) 100) <= 8)%nat /\
  exists s' evs,
    capacity_cb full_backend full_backend Download 8 playback_small 100
    = Some (s', evs) /\ forallb (direction_ok Download) evs = true.
Proof.
  assert (H1 : regs_ok playback_small = true) by reflexivity.
  assert (H2 : 0 <= 100 < 2 ^ 31) by lia.
  assert (H3 : (Z.to_nat (Z.min (reg playback_small (REMAINING Download)) 100)
                <= 8)%nat) by (vm_compute; lia).
  split; [exact H1|]. split; [exact H2|]. split; [exact H3|].
  exact (callback_keeps_its_direction full_backend full_backend
           full_backend_bounded full_backend_bounded Download 8%nat
           playback_small 100 H1 H2 H3).
Defined.

Lemma callback_walks_memory_from_ADDR_witness :
  regs_ok record_idle = true /\
  0 <= 100 < 2 ^ 31 /\
  (Z.to_nat (Z.min (reg record_idle (REMAINING Upload)) 100) <= 8)%nat /\
  exists s' evs,
    capacity_cb supply_backend supply_backend Upload 8 record_idle 100
    = Some (s', evs) /\ mem_cursor 0x2000 evs = true.
Proof.
  assert (H1 : regs_ok record_idle = true) by reflexivity.
  assert (H2 : 0 <= 100 < 2 ^ 31) by lia.
  assert (H3 : (Z.to_nat (Z.min (reg record_idle (REMAINING Upload)) 100) <= 8)%nat)
    by (vm_compute; lia).
  split; [exact H1|]. split; [exact H2|]. split; [exact H3|].
  destruct (callback_walks_memory_from_ADDR supply_backend supply_backend
              supply_backend_bounded supply_backend_bounded Upload 8%nat
              record_idle 100 H1 H2 H3)
    as (s' & evs & Hcb & Hcur & _).
  exists s', evs. split; [exact Hcb | exact Hcur].
Defined.

Lemma callback_frame_witness :
  regs_ok record_idle = true /\
  0 <= 100 < 2 ^ 31 /\
  (Z.to_nat (Z.min (reg record_idle (REMAINING Upload)) 100) <= 8)%nat /\
  exists s' evs,
    capacity_cb supply_backend supply_backend Upload 8 record_idle 100
    = Some (s', evs) /\
    voice_out s' = voice_out record_idle.
Proof.
  assert (H1 : regs_ok record_idle = true) by reflexivity.
  assert (H2 : 0 <= 100 < 2 ^ 31) by lia.
  assert (H3 : (Z.to_nat (Z.min (reg record_idle (REMAINING Upload)) 100) <= 8)%nat)
    by (vm_compute; lia).
  split; [exact H1|]. split; [exact H2|]. split; [exact H3|].
  destruct (callback_frame supply_backend supply_backend
              supply_backend_bounded supply_backend_bounded Upload 8%nat
              record_idle 100 H1 H2 H3)
    as (s' & evs & Hcb & _ & _ & _ & _ & _ & Hvo).
  exists s', evs. split; [exact Hcb | exact (Hvo eq_refl)].
Defined.


Lemma reset_state_is_quiet_witness :
  length (regs playback_programmed) = Z.to_nat R_MAX /\
  fst (fst (ac97_read (milkymist_ac97_reset playback_programmed) 0x18)) = 0 /\
  run_cbs (capacity_cb full_backend full_backend Download 0)
    (milkymist_ac97_reset playback_programmed) [4096]
  = Some (milkymist_ac97_reset playback_programmed, []).
Proof.
  assert (H : length (regs playback_programmed) = Z.to_nat R_MAX) by reflexivity.
  split; [exact H|].
  exact (reset_state_is_quiet full_backend full_backend playback_programmed
           0x18 Download 0%nat [4096] H).
Defined.

Lemma rqen_is_never_stored_witness :
  regs_ok record_idle = true /\
  Z.testbit (reg record_idle R_AC97_CTRL) 0 = false /\
  forallb (op_ok 8) sample_ops = true /\
  exists s' evs,
    run supply_backend supply_backend 8 record_idle sample_ops = Some (s', evs) /\
    Z.testbit (reg s' R_AC97_CTRL) 0 = false.
Proof.
  assert (H1 : regs_ok record_idle = true) by reflexivity.
  assert (H2 : Z.testbit (reg record_idle R_AC97_CTRL) 0 = false) by reflexivity.
  assert (H3 : forallb (op_ok 8) sample_ops = true) by reflexivity.
  split; [exact H1|]. split; [exact H2|]. split; [exact H3|].
  exact (rqen_is_never_stored supply_backend supply_backend
           supply_backend_bounded supply_backend_bounded 8%nat sample_ops
           record_idle H1 H2 H3).
Defined.

Lemma register_write_side_effects_witness :
  Z.shiftr 0x18 2 <> R_AC97_CTRL /\
  Z.shiftr 0x18 2 <> R_D_CTRL /\ Z.shiftr 0x18 2 <> R_U_CTRL /\
  pulses (snd (ac97_write playback_programmed 0x18 3)) = [] /\
  voice_out (fst (ac97_write playback_programmed 0x18 3))
  = voice_out playback_programmed.
Proof.
  assert (H1 : Z.shiftr 0x18 2 <> R_AC97_CTRL) by (vm_compute; discriminate).
  assert (H2 : Z.shiftr 0x18 2 <> R_D_CTRL) by (vm_compute; discriminate).
  assert (H3 : Z.shiftr 0x18 2 <> R_U_CTRL) by (vm_compute; discriminate).
  split; [exact H1|]. split; [exact H2|]. split; [exact H3|]. split.
  - exact (proj1 (register_write_side_effects playback_programmed 0x18 3) H1).
  - exact (proj2 (proj2 (register_write_side_effects playback_programmed 0x18 3)
                    H2 H3)).
Defined.

Lemma post_load_idempotent_and_neutral_witness :
  voices_synced playback_programmed = true /\
  length (regs playback_programmed) = Z.to_nat R_MAX /\
  snd (ac97_post_load playback_programmed 1) = playback_programmed /\
  snd (ac97_post_load (milkymist_ac97_reset playback_programmed) 1)
  = milkymist_ac97_reset playback_programmed.
Proof.
  assert (H1 : voices_synced playback_programmed = true) by reflexivity.
  assert (H2 : length (regs playback_programmed) = Z.to_nat R_MAX) by reflexivity.
  split; [exact H1|]. split; [exact H2|]. split.
  - exact (proj1 (proj2 (post_load_idempotent_and_neutral playback_programmed 1 1)) H1).
  - exact (proj2 (proj2 (post_load_idempotent_and_neutral playback_programmed 1 1)) H2).
Defined.
